(** * pysph/sph/basic_equations.py: the basic SPH equations

    A shallow embedding of the seven equation classes of
    [pysph/sph/basic_equations.py] and the properties of their three stages
    [initialize], [loop] and [post_loop].

    Modelling decisions.
    - Scalars.  The particle properties are IEEE binary64 numbers, Python's
      [float] and the [float64] of the particle arrays.  They are Rocq's
      primitive floats: [+], [-], [*], [/] and the comparisons are the
      hardware operations, with their rounding, signed zeros, infinities and
      [nan].  What is proved about them for all inputs rests on the
      specification of the primitive operations in [FloatAxioms].
    - Division by zero.  Python's [/] raises [ZeroDivisionError] when the
      divisor is a zero and the operands are Python floats; on the [float64]
      elements of an array the same [/] returns [inf] or [nan].  A state
      records which of the two the operands of a run are ([numeric]), and
      [truediv] follows it.
    - Arrays.  Every method receives its particle arrays as arguments and
      mutates them in place.  The arrays live in a store, a finite map from
      references to lists of scalars; a method receives references, so two
      parameters may denote the same array.  A reference is the pair of the
      particle-array name and the property name, which is how the parameter
      names [d_x] and [s_x] are resolved.
    - Effects.  A method body is a computation in a state-and-exception
      monad over the store and the equation object [self]; an exception
      keeps the state reached when it was raised.
    - Indices are naturals: the indices handed to the methods are particle
      numbers.  Reading or writing past the end raises [IndexError].
    - The 3-vectors [DWIJ], [VIJ], [XIJ], [DT_ADAPT] are records of three
      scalars; the default values of keyword parameters are not modelled,
      every argument is passed explicitly. *)

From Stdlib Require Import Floats ZArith QArith.
From stdpp Require Import base strings list gmap fin_maps.

Set Warnings "-inexact-float".
Local Open Scope float_scope.

(** ** Stores, exceptions and the monad *)

Definition ref : Type := string * string.

Abbreviation store := (gmap ref (list float)).

Inductive exn : Set :=
  | ZeroDivisionError
  | IndexError
  | KeyError.

Inductive outcome (A : Type) : Type :=
  | Ok (a : A)
  | Raise (e : exn).
Arguments Ok {A} a.
Arguments Raise {A} e.

(** The kind of the numbers of a run: Python floats, or the [float64]
    elements of arrays. *)
Inductive operands : Set :=
  | PyFloat
  | Float64.

Record state (O : Type) : Type :=
  State { self : O; heap : store; numeric : operands }.
Arguments State {O} self heap numeric.
Arguments self {O} s.
Arguments heap {O} s.
Arguments numeric {O} s.

Definition M (O A : Type) : Type := state O → outcome A * state O.

Global Instance M_ret {O} : MRet (M O) := λ A a st, (Ok a, st).

Global Instance M_bind {O} : MBind (M O) := λ A B k m st,
  match m st with
  | (Ok a, st') => k a st'
  | (Raise e, st') => (Raise e, st')
  end.

Definition raise {O A} (e : exn) : M O A := λ st, (Raise e, st).

(** [self.x] *)
Definition getattr {O A} (f : O → A) : M O A := λ st, (Ok (f (self st)), st).

(** [self.x = v] *)
Definition setattr {O} (f : O → O) : M O unit :=
  λ st, (Ok tt, State (f (self st)) (heap st) (numeric st)).

(** [a[i]] as an expression; a reference that names no array of the store is
    the missing-field error of a misconfigured particle array. *)
Definition getitem {O} (a : ref) (i : nat) : M O float := λ st,
  match heap st !! a with
  | None => (Raise KeyError, st)
  | Some l =>
      match l !! i with
      | None => (Raise IndexError, st)
      | Some x => (Ok x, st)
      end
  end.

(** [a[i] = v] *)
Definition setitem {O} (a : ref) (i : nat) (v : float) : M O unit := λ st,
  match heap st !! a with
  | None => (Raise KeyError, st)
  | Some l =>
      if decide (i < length l)%nat
      then (Ok tt, State (self st) (<[a := <[i := v]> l]> (heap st)) (numeric st))
      else (Raise IndexError, st)
  end.

(** [x / y]: a zero divisor, [0.0] or [-0.0], raises on Python floats and
    gives the IEEE quotient, [inf] or [nan], on [float64]. *)
Definition truediv {O} (x y : float) : M O float := λ st,
  if is_zero y
  then match numeric st with
       | PyFloat => (Raise ZeroDivisionError, st)
       | Float64 => (Ok (x / y), st)
       end
  else (Ok (x / y), st).

(** [a[i] += e]: the element is read, then [e] is evaluated, then the sum is
    stored. *)
Definition iadd_item {O} (a : ref) (i : nat) (e : M O float) : M O unit :=
  x ← getitem a i; y ← e; setitem a i (x + y).

(** A 3-vector [V]; [elt0 V], [elt1 V], [elt2 V] are [V[0]], [V[1]], [V[2]]. *)
Record vec3 : Set := Vec3 { elt0 : float; elt1 : float; elt2 : float }.

Definition dot (a b : vec3) : float :=
  elt0 a * elt0 b + elt1 a * elt1 b + elt2 a * elt2 b.

Definition half : float := 0.5.

(** Modelled from the spec: the base class [Equation] of
    [pysph/sph/equation.py] is not among the sources.  The spec gives an
    equation two identifiers, [dest] and [source], and a boolean
    [symmetric] flag, fixed at construction. *)
Record Equation : Set := { dest : string; source : option string; symmetric : bool }.

Definition Equation_init {O} (set_base : Equation → O → O)
    (dest : string) (source : option string) (symmetric : bool) : M O unit :=
  setattr (set_base {| dest := dest; source := source; symmetric := symmetric |}).

(** Modelled from the spec: the evaluation loop belongs to the engine, not
    to this file.  For one destination particle it calls [loop] once per
    neighbour, in the order of the neighbour list. *)
Fixpoint foreach {O X} (l : list X) (body : X → M O unit) : M O unit :=
  match l with
  | [] => mret tt
  | x :: l' => body x;; foreach l' body
  end.

(** ** SummationDensity *)

Module SummationDensity.

Definition initialize (d_idx : nat) (d_rho : ref) : M Equation unit :=
  setitem d_rho d_idx 0.

Definition loop (d_idx : nat) (d_rho : ref) (s_idx : nat) (s_m : ref)
    (WIJ : float) : M Equation unit :=
  iadd_item d_rho d_idx (m ← getitem s_m s_idx; mret (m * WIJ)).

End SummationDensity.

(** ** BodyForce *)

Module BodyForce.

Record t : Set := { base : Equation; fx : float; fy : float; fz : float }.

Definition set_base (b : Equation) (o : t) : t :=
  {| base := b; fx := fx o; fy := fy o; fz := fz o |}.
Definition set_fx (v : float) (o : t) : t :=
  {| base := base o; fx := v; fy := fy o; fz := fz o |}.
Definition set_fy (v : float) (o : t) : t :=
  {| base := base o; fx := fx o; fy := v; fz := fz o |}.
Definition set_fz (v : float) (o : t) : t :=
  {| base := base o; fx := fx o; fy := fy o; fz := v |}.

Definition init (dest : string) (source : option string) (fx fy fz : float)
    (symmetric : bool) : M t unit :=
  setattr (set_fx fx);;
  setattr (set_fy fy);;
  setattr (set_fz fz);;
  Equation_init set_base dest source symmetric.

Definition initialize (d_idx : nat) (d_au d_av d_aw : ref) : M t unit :=
  setitem d_au d_idx 0;;
  setitem d_av d_idx 0;;
  setitem d_aw d_idx 0.

Definition loop (d_idx : nat) (d_au d_av d_aw : ref) : M t unit :=
  iadd_item d_au d_idx (getattr fx);;
  iadd_item d_av d_idx (getattr fy);;
  iadd_item d_aw d_idx (getattr fz).

End BodyForce.

(** ** VelocityGradient2D *)

Module VelocityGradient2D.

Definition initialize (d_idx : nat) (d_v00 d_v01 d_v10 d_v11 : ref) : M Equation unit :=
  setitem d_v00 d_idx 0;;
  setitem d_v01 d_idx 0;;
  setitem d_v10 d_idx 0;;
  setitem d_v11 d_idx 0.

Definition loop (d_idx s_idx : nat) (s_m s_rho : ref)
    (d_v00 d_v01 d_v10 d_v11 : ref) (DWIJ VIJ : vec3) : M Equation unit :=
  m ← getitem s_m s_idx;
  rho ← getitem s_rho s_idx;
  tmp ← truediv m rho;
  iadd_item d_v00 d_idx (mret (tmp * - elt0 VIJ * elt0 DWIJ));;
  iadd_item d_v01 d_idx (mret (tmp * - elt0 VIJ * elt1 DWIJ));;
  iadd_item d_v10 d_idx (mret (tmp * - elt1 VIJ * elt0 DWIJ));;
  iadd_item d_v11 d_idx (mret (tmp * - elt1 VIJ * elt1 DWIJ)).

End VelocityGradient2D.

(** ** IsothermalEOS *)

Module IsothermalEOS.

Record t : Set := { base : Equation; rho0 : float; c0 : float; c02 : float }.

Definition set_base (b : Equation) (o : t) : t :=
  {| base := b; rho0 := rho0 o; c0 := c0 o; c02 := c02 o |}.
Definition set_rho0 (v : float) (o : t) : t :=
  {| base := base o; rho0 := v; c0 := c0 o; c02 := c02 o |}.
Definition set_c0 (v : float) (o : t) : t :=
  {| base := base o; rho0 := rho0 o; c0 := v; c02 := c02 o |}.
Definition set_c02 (v : float) (o : t) : t :=
  {| base := base o; rho0 := rho0 o; c0 := c0 o; c02 := v |}.

Definition init (dest : string) (source : option string) (rho0 c0 : float)
    (symmetric : bool) : M t unit :=
  setattr (set_rho0 rho0);;
  setattr (set_c0 c0);;
  setattr (set_c02 (c0 * c0));;
  Equation_init set_base dest source symmetric.

Definition loop (d_idx : nat) (d_rho d_p : ref) : M t unit :=
  c ← getattr c02;
  rho ← getitem d_rho d_idx;
  r0 ← getattr rho0;
  setitem d_p d_idx (c * (rho - r0)).

End IsothermalEOS.

(** ** ContinuityEquation *)

Module ContinuityEquation.

Definition initialize (d_idx : nat) (d_arho : ref) : M Equation unit :=
  setitem d_arho d_idx 0.

Definition loop (d_idx : nat) (d_arho : ref) (s_idx : nat) (s_m d_m s_arho : ref)
    (DWIJ VIJ : vec3) : M Equation unit :=
  let vijdotdwij := dot DWIJ VIJ in
  iadd_item d_arho d_idx (m ← getitem s_m s_idx; mret (m * vijdotdwij));;
  sym ← getattr symmetric;
  if sym : bool
  then iadd_item s_arho s_idx (m ← getitem d_m d_idx; mret (- m * vijdotdwij))
  else mret tt.

End ContinuityEquation.

(** ** MonaghanArtificialViscosity *)

Module MonaghanArtificialViscosity.

Record t : Set := { base : Equation; alpha : float; beta : float; eta : float }.

Definition set_base (b : Equation) (o : t) : t :=
  {| base := b; alpha := alpha o; beta := beta o; eta := eta o |}.
Definition set_alpha (v : float) (o : t) : t :=
  {| base := base o; alpha := v; beta := beta o; eta := eta o |}.
Definition set_beta (v : float) (o : t) : t :=
  {| base := base o; alpha := alpha o; beta := v; eta := eta o |}.
Definition set_eta (v : float) (o : t) : t :=
  {| base := base o; alpha := alpha o; beta := beta o; eta := v |}.

Definition init (dest : string) (source : option string) (alpha beta eta : float)
    (symmetric : bool) : M t unit :=
  setattr (set_alpha alpha);;
  setattr (set_beta beta);;
  setattr (set_eta eta);;
  Equation_init set_base dest source symmetric.

Definition initialize (d_idx : nat) (d_au d_av d_aw : ref) : M t unit :=
  setitem d_au d_idx 0;;
  setitem d_av d_idx 0;;
  setitem d_aw d_idx 0.

(** The statements of [loop] that compute the local [piij] from [vijdotxij]
    (from [piij = 0.0] to the end of the [if]). *)
Definition piij_of (vijdotxij : float) (d_idx s_idx : nat) (d_cs s_cs : ref)
    (HIJ R2IJ RHOIJ1 : float) : M t float :=
  if vijdotxij <? 0
  then
    ci ← getitem d_cs d_idx;
    cj ← getitem s_cs s_idx;
    let cij := half * (ci + cj) in
    e ← getattr eta;
    e' ← getattr eta;
    muij ← truediv (HIJ * vijdotxij) (R2IJ + e * e' * HIJ * HIJ);
    a ← getattr alpha;
    b ← getattr beta;
    let piij := - a * cij * muij + b * muij * muij in
    mret (piij * RHOIJ1)
  else mret 0.

Definition loop (d_idx s_idx : nat) (d_rho d_cs d_au d_av d_aw s_m s_rho s_cs : ref)
    (VIJ XIJ : vec3) (HIJ R2IJ RHOIJ1 : float) (DWIJ DT_ADAPT : vec3) : M t unit :=
  ri ← getitem d_rho d_idx;
  ri' ← getitem d_rho d_idx;
  rhoi21 ← truediv 1 (ri * ri');
  rj ← getitem s_rho s_idx;
  rj' ← getitem s_rho s_idx;
  rhoj21 ← truediv 1 (rj * rj');
  let vijdotxij := dot VIJ XIJ in
  piij ← piij_of vijdotxij d_idx s_idx d_cs s_cs HIJ R2IJ RHOIJ1;
  iadd_item d_au d_idx (m ← getitem s_m s_idx; mret (- m * piij * elt0 DWIJ));;
  iadd_item d_av d_idx (m ← getitem s_m s_idx; mret (- m * piij * elt1 DWIJ));;
  iadd_item d_aw d_idx (m ← getitem s_m s_idx; mret (- m * piij * elt2 DWIJ)).

End MonaghanArtificialViscosity.

(** ** XSPHCorrection *)

Module XSPHCorrection.

Record t : Set := { base : Equation; eps : float }.

Definition set_base (b : Equation) (o : t) : t := {| base := b; eps := eps o |}.
Definition set_eps (v : float) (o : t) : t := {| base := base o; eps := v |}.

Definition init (dest : string) (source : option string) (eps : float)
    (symmetric : bool) : M t unit :=
  setattr (set_eps eps);;
  Equation_init set_base dest source symmetric.

Definition initialize (d_idx : nat) (d_ax d_ay d_az : ref) : M t unit :=
  setitem d_ax d_idx 0;;
  setitem d_ay d_idx 0;;
  setitem d_az d_idx 0.

Definition loop (s_idx d_idx : nat) (s_m d_ax d_ay d_az d_m s_ax s_ay s_az : ref)
    (WIJ RHOIJ1 : float) (VIJ : vec3) : M t unit :=
  e ← getattr eps;
  m ← getitem s_m s_idx;
  let tmp := - e * m * WIJ * RHOIJ1 in
  let v1 := tmp * elt0 VIJ in
  let v2 := tmp * elt1 VIJ in
  let v3 := tmp * elt2 VIJ in
  iadd_item d_ax d_idx (mret v1);;
  iadd_item d_ay d_idx (mret v2);;
  iadd_item d_az d_idx (mret v3);;
  sym ← getattr (λ o, symmetric (base o));
  if sym : bool
  then
    dm ← getitem d_m d_idx;
    sm ← getitem s_m s_idx;
    factor ← truediv (- dm) sm;
    iadd_item s_ax s_idx (mret (v1 * factor));;
    iadd_item s_ay s_idx (mret (v2 * factor));;
    iadd_item s_az s_idx (mret (v3 * factor))
  else mret tt.

Definition post_loop (d_idx : nat) (d_ax d_ay d_az d_u d_v d_w : ref) : M t unit :=
  iadd_item d_ax d_idx (getitem d_u d_idx);;
  iadd_item d_ay d_idx (getitem d_v d_idx);;
  iadd_item d_az d_idx (getitem d_w d_idx).

End XSPHCorrection.

(** ** Numbers *)

(** [x] and [y] are the same double, or both are zeros ([0.0] and [-0.0]
    compare equal with [==]). *)
Definition same_number (x y : float) : Prop :=
  x = y ∨ (is_zero x = true ∧ is_zero y = true).

(** [inf], [-inf] or [nan]. *)
Definition nonfinite (x : float) : bool := is_nan x || is_infinity x.

(** The sign of a number on the specification side; a zero and [nan] are
    neither negative nor positive. *)
Definition not_negative (x : spec_float) : Prop :=
  match x with S754_infinity true | S754_finite true _ _ => False | _ => True end.
Definition not_positive (x : spec_float) : Prop :=
  match x with S754_infinity false | S754_finite false _ _ => False | _ => True end.
Definition positive_sf (x : spec_float) : Prop :=
  match x with S754_infinity false | S754_finite false _ _ => True | _ => False end.

(** The rational number a finite double stands for. *)
Definition exact (x : float) : option Q :=
  match Prim2SF x with
  | S754_zero _ => Some 0%Q
  | S754_finite s m e => Some (inject_Z (cond_Zopp s (Zpos m)) * Qpower 2 e)%Q
  | _ => None
  end.

(** The sum, as a rational number, of the numbers of a list. *)
Fixpoint exact_sum (l : list float) : option Q :=
  match l with
  | [] => Some 0%Q
  | x :: l' =>
      match exact x, exact_sum l' with
      | Some q, Some r => Some (q + r)%Q
      | _, _ => None
      end
  end.

(** [x] is, as a number, the sum of the numbers of [l]. *)
Definition is_exact_sum (x : float) (l : list float) : bool :=
  match exact x, exact_sum l with
  | Some q, Some r => Qeq_bool q r
  | _, _ => false
  end.

(** The running sum [((x + t1) + t2) + ...] of [+=] over a list of terms,
    each addition rounded. *)
Definition accumulate (terms : list float) (x : float) : float :=
  fold_left PrimFloat.add terms x.

(** [f] added [n] times to [x]. *)
Definition add_times (n : nat) (f x : float) : float :=
  Nat.iter n (λ y, y + f) x.

(** ** Derived definitions used by the statements *)

(** The terms [s_m[j] * WIJ] of a neighbour list of pairs [(j, WIJ)]. *)
Definition density_terms (ms : list float) (nbrs : list (nat * float)) : list float :=
  (λ p, default 0 (ms !! p.1) * p.2) <$> nbrs.

(** One pass of SummationDensity over the neighbours of particle [d_idx]. *)
Definition density_pass (d_idx : nat) (d_rho s_m : ref) (nbrs : list (nat * float))
    : M Equation unit :=
  SummationDensity.initialize d_idx d_rho;;
  foreach nbrs (λ p, SummationDensity.loop d_idx d_rho p.1 s_m p.2).

(** [item h a i] is the element [a[i]] of the store, when there is one. *)
Definition item (h : store) (a : ref) (i : nat) : option float :=
  h !! a ≫= (.!! i).

(** The store after the assignment [a[i] = v]. *)
Definition update (h : store) (a : ref) (i : nat) (v : float) : store :=
  match h !! a with
  | Some l => <[a := <[i := v]> l]> h
  | None => h
  end.

(** Two stores with the same arrays and, element by element, the same
    numbers. *)
Definition same_numbers (h h' : store) : Prop :=
  ∀ a i, option_Forall2 same_number (item h a i) (item h' a i).

(** One pass of BodyForce over the neighbours of particle [d_idx]; [loop]
    takes no source index, it is called once per neighbour all the same. *)
Definition body_force_pass (d_idx : nat) (d_au d_av d_aw : ref) (nbrs : list nat)
    : M BodyForce.t unit :=
  BodyForce.initialize d_idx d_au d_av d_aw;;
  foreach nbrs (λ _, BodyForce.loop d_idx d_au d_av d_aw).

(** [keeps_self m]: the computation leaves the equation object as it was,
    whether it completes or raises. *)
Definition keeps_self {O A} (m : M O A) : Prop :=
  ∀ st, self (m st).2 = self st.

(** [reads_only P m]: the computation leaves the whole state as it was, and
    a value it returns satisfies [P]. *)
Definition reads_only {O A} (P : A → Prop) (m : M O A) : Prop :=
  ∀ st, (m st).2 = st ∧ ∀ x, (m st).1 = Ok x → P x.

(** Two stores that agree on every array outside [D]. *)
Definition agree_off (D : ref → Prop) (h1 h2 : store) : Prop :=
  ∀ r, ¬ D r → h1 !! r = h2 !! r.

(** The arrays that hold the densities of a pair. *)
Definition density_arrays (d_rho s_rho : ref) : ref → Prop :=
  λ r, r = d_rho ∨ r = s_rho.

(** [blind D m]: run from two states with the same object, the same kind of
    numbers and stores that agree outside [D], the computation has the same
    outcome and leaves states that are related in the same way. *)
Definition blind {O A} (D : ref → Prop) (m : M O A) : Prop :=
  ∀ st1 st2, self st1 = self st2 → numeric st1 = numeric st2 →
    agree_off D (heap st1) (heap st2) →
    (m st1).1 = (m st2).1
    ∧ self (m st1).2 = self (m st2).2
    ∧ numeric (m st1).2 = numeric (m st2).2
    ∧ agree_off D (heap (m st1).2) (heap (m st2).2).

(** ** Footprints of the stages *)

(** The length of the array [a], when the store has it. *)
Definition shape (h : store) (a : ref) : option nat := length <$> h !! a.

(** [steps I m]: the state [m] ends in, by completing or by raising, is
    related by [I] to the state it started from. *)
Definition steps {O A} (I : state O → state O → Prop) (m : M O A) : Prop :=
  ∀ st, I st (m st).2.

(** The assignment [a[i] = v] is within the footprint [I]. *)
Definition write_ok {O} (I : state O → state O → Prop) (a : ref) (i : nat) : Prop :=
  ∀ v st, I st (State (self st) (update (heap st) a i v) (numeric st)).

(** The same arrays with the same lengths. *)
Definition same_shape {O} (st st' : state O) : Prop :=
  ∀ a, shape (heap st') a = shape (heap st) a.

(** The same elements everywhere but at the cells [W]. *)
Definition same_off {O} (W : list (ref * nat)) (st st' : state O) : Prop :=
  ∀ a i, (a, i) ∉ W → item (heap st') a i = item (heap st) a i.

(** The same object and kind of numbers, and a store with the same
    numbers. *)
Definition same_values {O} (st st' : state O) : Prop :=
  self st' = self st ∧ numeric st' = numeric st
  ∧ same_numbers (heap st) (heap st').


(** [indifferent R m]: run on the same store with two equation objects
    related by [R], the computation has the same outcome and leaves the same
    store, and objects that are still related. *)
Definition indifferent {O A} (R : O → O → Prop) (m : M O A) : Prop :=
  ∀ st1 st2, R (self st1) (self st2) → heap st1 = heap st2 →
    numeric st1 = numeric st2 →
    (m st1).1 = (m st2).1
    ∧ R (self (m st1).2) (self (m st2).2)
    ∧ heap (m st1).2 = heap (m st2).2
    ∧ numeric (m st1).2 = numeric (m st2).2.

Definition same_force (o1 o2 : BodyForce.t) : Prop :=
  BodyForce.fx o1 = BodyForce.fx o2 ∧ BodyForce.fy o1 = BodyForce.fy o2
  ∧ BodyForce.fz o1 = BodyForce.fz o2.

Definition same_eos (o1 o2 : IsothermalEOS.t) : Prop :=
  IsothermalEOS.c02 o1 = IsothermalEOS.c02 o2
  ∧ IsothermalEOS.rho0 o1 = IsothermalEOS.rho0 o2.

Definition same_viscosity (o1 o2 : MonaghanArtificialViscosity.t) : Prop :=
  MonaghanArtificialViscosity.alpha o1 = MonaghanArtificialViscosity.alpha o2
  ∧ MonaghanArtificialViscosity.beta o1 = MonaghanArtificialViscosity.beta o2
  ∧ MonaghanArtificialViscosity.eta o1 = MonaghanArtificialViscosity.eta o2.

(** The viscosity term of an approaching pair, as [loop] computes it from
    the parameters, the two sound speeds and [vijdotxij]. *)
Definition monaghan_pi (alpha beta eta ci cj vijdotxij HIJ R2IJ RHOIJ1 : float) : float :=
  let cij := half * (ci + cj) in
  let muij := (HIJ * vijdotxij) / (R2IJ + eta * eta * HIJ * HIJ) in
  (- alpha * cij * muij + beta * muij * muij) * RHOIJ1.

(** What the engine hands to [XSPHCorrection.loop] for one neighbour. *)
Record xsph_nbr : Set :=
  { nbr_idx : nat; nbr_WIJ : float; nbr_RHOIJ1 : float; nbr_VIJ : vec3 }.

(** Modelled from the spec: one full pass of XSPHCorrection for particle
    [d_idx], [initialize], [loop] once per neighbour, then [post_loop]. *)
Definition xsph_pass (d_idx : nat) (s_m d_ax d_ay d_az d_m s_ax s_ay s_az : ref)
    (d_u d_v d_w : ref) (nbrs : list xsph_nbr) : M XSPHCorrection.t unit :=
  XSPHCorrection.initialize d_idx d_ax d_ay d_az;;
  foreach nbrs (λ n, XSPHCorrection.loop (nbr_idx n) d_idx s_m d_ax d_ay d_az d_m
                       s_ax s_ay s_az (nbr_WIJ n) (nbr_RHOIJ1 n) (nbr_VIJ n));;
  XSPHCorrection.post_loop d_idx d_ax d_ay d_az d_u d_v d_w.

(** The terms [- eps * s_m[j] * WIJ * RHOIJ1 * VIJ[k]] of a neighbour list,
    for the component [k] of [VIJ]. *)
Definition xsph_terms (eps : float) (h : store) (s_m : ref) (k : vec3 → float)
    (nbrs : list xsph_nbr) : list float :=
  (λ n, - eps * default 0 (item h s_m (nbr_idx n)) * nbr_WIJ n * nbr_RHOIJ1 n
        * k (nbr_VIJ n)) <$> nbrs.

(** Modelled from the spec: one pass of ContinuityEquation over the
    neighbours [(j, DWIJ, VIJ)] of particle [d_idx]. *)
Definition continuity_pass (d_idx : nat) (d_arho s_m d_m s_arho : ref)
    (nbrs : list (nat * vec3 * vec3)) : M Equation unit :=
  ContinuityEquation.initialize d_idx d_arho;;
  foreach nbrs (λ n, ContinuityEquation.loop d_idx d_arho n.1.1 s_m d_m s_arho
                       n.1.2 n.2).

(** The terms [s_m[j] * (VIJ·DWIJ)] of a neighbour list. *)
Definition continuity_terms (h : store) (s_m : ref)
    (nbrs : list (nat * vec3 * vec3)) : list float :=
  (λ n, default 0 (item h s_m n.1.1) * dot n.1.2 n.2) <$> nbrs.

(** ** A two-particle example

    One particle array, [fluid], that is destination and source at once. *)

Definition fluid : store :=
  list_to_map
    [ (("fluid", "rho"), [1000; 998]);
      (("fluid", "m"), [2; 2]);
      (("fluid", "p"), [7; 7]);
      (("fluid", "cs"), [10; 10]);
      (("fluid", "u"), [1; 0]);
      (("fluid", "v"), [0; 1]);
      (("fluid", "w"), [0; 0]);
      (("fluid", "au"), [5; 5]);
      (("fluid", "av"), [5; 5]);
      (("fluid", "aw"), [5; 5]);
      (("fluid", "ax"), [3; 3]);
      (("fluid", "ay"), [3; 3]);
      (("fluid", "az"), [3; 3]);
      (("fluid", "arho"), [0; 0]) ].

(** The same particles with other densities, with a particle of zero
    density and with a particle whose density squares to zero. *)
Definition fluid_dense : store := <[("fluid", "rho") := [1; 3]]> fluid.
Definition fluid_thin : store := <[("fluid", "rho") := [1e-200; 998]]> fluid.

(** The same particles with the four arrays of the velocity gradient, with a
    massless second particle, and with an array [av] that is too short. *)
Definition fluid_2d : store :=
  <[("fluid", "v00") := [1; 1]]> (<[("fluid", "v01") := [1; 1]]>
  (<[("fluid", "v10") := [1; 1]]> (<[("fluid", "v11") := [1; 1]]> fluid))).
Definition fluid_massless : store := <[("fluid", "m") := [2; 0]]> fluid.
Definition fluid_short : store := <[("fluid", "av") := [5]]> fluid.

(** Three particles of masses [0.1], [0.2] and [0.3]. *)
Definition drops : store :=
  list_to_map
    [ (("drops", "rho"), [0; 0; 0]);
      (("drops", "m"), [0.1; 0.2; 0.3]);
      (("drops", "arho"), [0; 0; 0]);
      (("drops", "ax"), [0; 0; 0]);
      (("drops", "ay"), [0; 0; 0]);
      (("drops", "az"), [0; 0; 0]);
      (("drops", "u"), [1; 0; 0]);
      (("drops", "v"), [0; 1; 0]);
      (("drops", "w"), [0; 0; 1]) ].

Definition plain : Equation :=
  {| dest := "fluid"; source := Some "fluid"; symmetric := false |}.
Definition paired : Equation :=
  {| dest := "fluid"; source := Some "fluid"; symmetric := true |}.

Definition wind : BodyForce.t :=
  {| BodyForce.base := plain;
     BodyForce.fx := 0.1; BodyForce.fy := 1.5; BodyForce.fz := 0 |}.

Definition water : IsothermalEOS.t :=
  {| IsothermalEOS.base := plain; IsothermalEOS.rho0 := 1000;
     IsothermalEOS.c0 := 10; IsothermalEOS.c02 := 100 |}.

Definition viscous : MonaghanArtificialViscosity.t :=
  {| MonaghanArtificialViscosity.base := plain;
     MonaghanArtificialViscosity.alpha := 1;
     MonaghanArtificialViscosity.beta := 1;
     MonaghanArtificialViscosity.eta := 0.1 |}.

Definition xsph : XSPHCorrection.t :=
  {| XSPHCorrection.base := plain; XSPHCorrection.eps := half |}.

Definition xsph_paired : XSPHCorrection.t :=
  {| XSPHCorrection.base := paired; XSPHCorrection.eps := half |}.

Definition e_x : vec3 := Vec3 1 0 0.

Definition closing : vec3 := Vec3 (-1) 0 0.

(** The three particles of [drops] as the neighbours of one of them. *)
Definition three_nbrs : list xsph_nbr :=
  [ {| nbr_idx := 0; nbr_WIJ := 1; nbr_RHOIJ1 := 1; nbr_VIJ := e_x |};
    {| nbr_idx := 1; nbr_WIJ := 1; nbr_RHOIJ1 := 1; nbr_VIJ := e_x |};
    {| nbr_idx := 2; nbr_WIJ := 1; nbr_RHOIJ1 := 1; nbr_VIJ := e_x |} ].
Definition three_pairs : list (nat * vec3 * vec3) :=
  [ (0%nat, e_x, e_x); (1%nat, e_x, e_x); (2%nat, e_x, e_x) ].
Definition three_weights : list (nat * float) :=
  [ (0%nat, 1); (1%nat, 1); (2%nat, 1) ].
Definition ten_visits : list nat := replicate 10 1%nat.


(** * Facts about binary64 numbers *)

Lemma Prim2SF_0 : Prim2SF 0 = S754_zero false.
Proof. reflexivity. Qed.
Lemma SFcompare_refl x : x ≠ S754_nan → SFcompare x x = Some Eq.
Proof.
  destruct x as [[]|[]| |[] m e]; simpl; try done.
  - by rewrite Z.compare_refl, Pos.compare_cont_refl.
  - by rewrite Z.compare_refl, Pos.compare_cont_refl.
Qed.

Lemma is_nan_sf x :
  is_nan x = match Prim2SF x with S754_nan => true | _ => false end.
Proof.
  unfold is_nan. rewrite FloatAxioms.eqb_spec. unfold SFeqb.
  destruct (Prim2SF x) as [s|s| |s m e] eqn:E; [| |done|];
    by rewrite SFcompare_refl.
Qed.

Lemma is_zero_sf x :
  is_zero x = match Prim2SF x with S754_zero _ => true | _ => false end.
Proof.
  unfold is_zero. rewrite FloatAxioms.eqb_spec. change (Prim2SF zero) with (S754_zero false).
  unfold SFeqb. by destruct (Prim2SF x) as [s|[]| |[] m e].
Qed.

Lemma is_infinity_sf x :
  is_infinity x = match Prim2SF x with S754_infinity _ => true | _ => false end.
Proof.
  unfold is_infinity. rewrite FloatAxioms.eqb_spec, abs_spec.
  change (Prim2SF infinity) with (S754_infinity false).
  unfold SFeqb. by destruct (Prim2SF x) as [s|[]| |[] m e].
Qed.

Lemma is_finite_sf x :
  is_finite x
  = match Prim2SF x with S754_zero _ | S754_finite _ _ _ => true | _ => false end.
Proof.
  unfold is_finite. rewrite is_nan_sf, is_infinity_sf.
  by destruct (Prim2SF x).
Qed.

Lemma nonfinite_sf x :
  nonfinite x
  = match Prim2SF x with S754_nan | S754_infinity _ => true | _ => false end.
Proof.
  unfold nonfinite. rewrite is_nan_sf, is_infinity_sf. by destruct (Prim2SF x).
Qed.

Lemma ltb_0_sf x :
  (x <? 0) = match Prim2SF x with
             | S754_infinity true | S754_finite true _ _ => true | _ => false end.
Proof.
  rewrite ltb_spec. change (Prim2SF 0) with (S754_zero false).
  unfold SFltb. by destruct (Prim2SF x) as [s|[]| |[] m e].
Qed.

Lemma leb_0_sf x :
  (0 <=? x) = match Prim2SF x with
              | S754_nan | S754_infinity true | S754_finite true _ _ => false
              | _ => true end.
Proof.
  rewrite leb_spec. change (Prim2SF 0) with (S754_zero false).
  unfold SFleb. by destruct (Prim2SF x) as [s|[]| |[] m e].
Qed.

Lemma lt_0_sf x :
  (0 <? x) = match Prim2SF x with
             | S754_infinity false | S754_finite false _ _ => true | _ => false end.
Proof.
  rewrite ltb_spec. change (Prim2SF 0) with (S754_zero false).
  unfold SFltb. by destruct (Prim2SF x) as [s|[]| |[] m e].
Qed.


Lemma binary_round_aux_sign s m e l :
  match binary_round_aux prec emax s m e l with
  | S754_zero s1 | S754_infinity s1 | S754_finite s1 _ _ => s1 = s
  | S754_nan => True
  end.
Proof.
  unfold binary_round_aux.
  destruct (shr_fexp prec emax m e l) as [mrs1 e1].
  destruct (shr_fexp prec emax _ e1 loc_Exact) as [mrs2 e2].
  destruct (shr_m mrs2); [done| |done]. by destruct (Z.leb _ _).
Qed.


Lemma binary_round_sign s m e :
  match binary_round prec emax s m e with
  | S754_zero s1 | S754_infinity s1 | S754_finite s1 _ _ => s1 = s
  | S754_nan => True
  end.
Proof.
  unfold binary_round. destruct (shl_align _ _ _) as [mz ez].
  apply binary_round_aux_sign.
Qed.

Lemma SFmul_sign x y :
  (not_negative x → not_negative y → not_negative (SF64mul x y))
  ∧ (not_negative x → not_positive y → not_positive (SF64mul x y))
  ∧ (not_positive x → not_negative y → not_positive (SF64mul x y))
  ∧ (not_positive x → not_positive y → not_negative (SF64mul x y)).
Proof.
  destruct x as [sx|sx| |sx mx ex], y as [sy|sy| |sy my ey];
    try (by destruct sx, sy; simpl; tauto); try (by destruct sx; simpl; tauto);
    try (by destruct sy; simpl; tauto); try (simpl; tauto).
  cbv beta iota delta [SF64mul SFmul].
  pose proof (binary_round_aux_sign (xorb sx sy) (Z.pos (mx * my)) (ex + ey) loc_Exact) as H.
  destruct (binary_round_aux _ _ _ _ _ _) as [s|s| |s m e]; try (simpl; tauto);
    subst s; destruct sx, sy; simpl; tauto.
Qed.

Lemma SFdiv_sign x y :
  positive_sf y →
  (not_negative x → not_negative (SF64div x y))
  ∧ (not_positive x → not_positive (SF64div x y)).
Proof.
  unfold SF64div.
  destruct x as [sx|sx| |sx mx ex], y as [[]|[]| |[] my ey];
    try (by simpl; tauto); try (by destruct sx; simpl; tauto).
  intros _. cbv beta iota delta [SFdiv].
  destruct (SFdiv_core_binary _ _ _ _ _ _) as [[mz ez] lz].
  pose proof (binary_round_aux_sign (xorb sx false) mz ez lz) as H.
  destruct (binary_round_aux _ _ _ _ _ _) as [s|s| |s m e]; try (simpl; tauto);
    subst s; destruct sx; simpl; tauto.
Qed.

Lemma SFadd_not_negative x y :
  not_negative x → not_negative y → not_negative (SF64add x y).
Proof.
  destruct x as [sx|sx| |sx mx ex], y as [sy|sy| |sy my ey];
    try (by destruct sx, sy; simpl; tauto); try (by destruct sx; simpl; tauto);
    try (by destruct sy; simpl; tauto); try (simpl; tauto).
  destruct sx, sy; simpl; try tauto. intros _ _.
  cbv beta iota zeta delta [SF64add SFadd cond_Zopp]. simpl Z.add.
  cbv beta iota delta [binary_normalize].
  pose proof (binary_round_sign false
    (fst (shl_align mx ex (Z.min ex ey)) + fst (shl_align my ey (Z.min ex ey))) (Z.min ex ey)) as H.
  destruct (binary_round _ _ _ _ _) as [s|s| |s m e]; try (simpl; tauto); by subst s.
Qed.

Lemma SFopp_sign x :
  (not_negative x → not_positive (SFopp x)) ∧ (not_positive x → not_negative (SFopp x)).
Proof. by destruct x as [[]|[]| |[] m e]. Qed.

Lemma same_number_refl x : same_number x x.
Proof. by left. Qed.

Lemma same_number_sym x y : same_number x y → same_number y x.
Proof. intros [->|[??]]; [by left|by right]. Qed.

Lemma same_number_trans x y z : same_number x y → same_number y z → same_number x z.
Proof.
  intros [->|[Hx Hy]] [->|[Hy' Hz]]; try (by left); try (by right).
Qed.


Lemma eqb_same_number x y : (x =? y) = true → same_number x y.
Proof.
  rewrite FloatAxioms.eqb_spec. unfold same_number. rewrite !is_zero_sf.
  intros H. destruct (Prim2SF x) as [sx|sx| |sx mx ex] eqn:Ex,
    (Prim2SF y) as [sy|sy| |sy my ey] eqn:Ey; try done; try (by right);
    try (by destruct sx); try (by destruct sy); left; apply Prim2SF_inj;
    rewrite Ex, Ey.
  - by destruct sx, sy.
  - unfold SFeqb, SFcompare in H.
    destruct sx, sy; try done;
      destruct (Z.compare ex ey) eqn:Hc; try done;
      apply Z.compare_eq in Hc as ->;
      destruct (Pos.compare_cont Eq mx my) eqn:Hm; try done;
      by apply Pos.compare_eq in Hm as ->.
Qed.


Lemma add_zero_r x z : is_zero z = true → same_number (x + z) x.
Proof.
  rewrite is_zero_sf. intros Hz. unfold same_number. rewrite !is_zero_sf.
  rewrite add_spec. destruct (Prim2SF z) as [sz| | |] eqn:Ez; try done.
  destruct (Prim2SF x) as [sx|sx| |sx mx ex] eqn:Ex.
  - right. split; [|done]. by destruct sx, sz.
  - left. apply Prim2SF_inj. by rewrite add_spec, Ex, Ez.
  - left. apply Prim2SF_inj. by rewrite add_spec, Ex, Ez.
  - left. apply Prim2SF_inj. by rewrite add_spec, Ex, Ez.
Qed.


Lemma mul_zero_r a z : is_finite a = true → is_zero z = true → is_zero (a * z) = true.
Proof.
  rewrite is_finite_sf, !is_zero_sf, mul_spec.
  by destruct (Prim2SF a), (Prim2SF z).
Qed.

Lemma mul_zero_l a z : is_zero z = true → is_finite a = true → is_zero (z * a) = true.
Proof.
  rewrite is_finite_sf, !is_zero_sf, mul_spec.
  by destruct (Prim2SF a), (Prim2SF z).
Qed.


Lemma is_finite_opp a : is_finite (- a) = is_finite a.
Proof. rewrite !is_finite_sf, opp_spec. by destruct (Prim2SF a). Qed.

Lemma is_zero_opp a : is_zero (- a) = is_zero a.
Proof. rewrite !is_zero_sf, opp_spec. by destruct (Prim2SF a). Qed.

Lemma div_zero_nonfinite x y : is_zero y = true → nonfinite (x / y) = true.
Proof.
  rewrite is_zero_sf, nonfinite_sf, div_spec.
  by destruct (Prim2SF x), (Prim2SF y).
Qed.


Lemma nonfinite_mul_r x y : nonfinite y = true → nonfinite (x * y) = true.
Proof.
  rewrite !nonfinite_sf, mul_spec.
  by destruct (Prim2SF x), (Prim2SF y).
Qed.

Lemma nonfinite_add_r x y : nonfinite y = true → nonfinite (x + y) = true.
Proof.
  rewrite !nonfinite_sf, add_spec.
  by destruct (Prim2SF x) as [|[]| |], (Prim2SF y) as [|[]| |].
Qed.

Lemma sub_diag x : is_finite x = true → x - x = 0.
Proof.
  rewrite is_finite_sf. intros Hx. apply Prim2SF_inj. rewrite sub_spec.
  change (Prim2SF 0) with (S754_zero false).
  destruct (Prim2SF x) as [[]| | |sx mx ex]; try done.
  cbv beta iota zeta delta [SF64sub SFsub]. by rewrite Z.sub_diag.
Qed.

Lemma sub_same_number x y :
  same_number x y → is_finite x = true → is_zero (x - y) = true.
Proof.
  intros [<-|[Hx Hy]] Hf.
  - by rewrite sub_diag.
  - rewrite is_zero_sf in *. rewrite sub_spec.
    by destruct (Prim2SF x) as [[]| | |], (Prim2SF y) as [[]| | |].
Qed.




Lemma not_negative_ltb x : not_negative (Prim2SF x) → (x <? 0) = false.
Proof. rewrite ltb_0_sf. by destruct (Prim2SF x) as [|[]| |[]]. Qed.

(** * Running the monad *)

Section exec.
Context {O : Type}.
Implicit Types (st : state O) (a : ref) (i : nat) (l : list float).

Lemma bind_ok {A B} (m : M O A) (k : A → M O B) st x st' :
  m st = (Ok x, st') → (m ≫= k) st = k x st'.
Proof. intros E. unfold mbind, M_bind. by rewrite E. Qed.

Lemma bind_raise {A B} (m : M O A) (k : A → M O B) st e st' :
  m st = (Raise e, st') → (m ≫= k) st = (Raise e, st').
Proof. intros E. unfold mbind, M_bind. by rewrite E. Qed.

Lemma bind_state {A B} (m : M O A) (k : A → M O B) st :
  ((m ≫= k) st).2
  = match (m st).1 with Ok x => (k x (m st).2).2 | Raise _ => (m st).2 end.
Proof. unfold mbind, M_bind. by destruct (m st) as [[x|e] st']. Qed.

Lemma getitem_ok a i l x st :
  heap st !! a = Some l → l !! i = Some x → getitem a i st = (Ok x, st).
Proof. intros Ha Hi. unfold getitem. by rewrite Ha, Hi. Qed.

Lemma setitem_ok a i l v st :
  heap st !! a = Some l → (i < length l)%nat →
  setitem a i v st
  = (Ok tt, State (self st) (<[a := <[i := v]> l]> (heap st)) (numeric st)).
Proof. intros Ha Hi. unfold setitem. rewrite Ha. by rewrite decide_True. Qed.

Lemma item_Some (h : store) a i x :
  item h a i = Some x ↔ ∃ l, h !! a = Some l ∧ l !! i = Some x.
Proof.
  unfold item. destruct (h !! a) as [l|]; simpl.
  - split; [eauto | by intros (? & [= <-] & ?)].
  - split; [done | by intros (? & ? & ?)].
Qed.

Lemma item_update_eq (h : store) a i v :
  is_Some (item h a i) → item (update h a i v) a i = Some v.
Proof.
  intros [x (l & Ha & Hi)%item_Some]. unfold update, item. rewrite Ha.
  rewrite lookup_insert_eq. simpl. apply list_lookup_insert_eq.
  by eapply lookup_lt_Some.
Qed.

Lemma item_update_ne (h : store) a i v b j :
  a ≠ b ∨ i ≠ j → item (update h a i v) b j = item h b j.
Proof.
  intros Hne. unfold update, item. destruct (h !! a) as [l|] eqn:Ha; [|done].
  destruct (decide (a = b)) as [<-|Hab].
  - rewrite lookup_insert_eq, Ha. simpl.
    apply list_lookup_insert_ne. by destruct Hne.
  - by rewrite lookup_insert_ne.
Qed.

Lemma update_id (h : store) a i v : item h a i = Some v → update h a i v = h.
Proof.
  intros (l & Ha & Hi)%item_Some. unfold update. rewrite Ha.
  rewrite list_insert_id by done. by apply insert_id.
Qed.

Lemma update_miss (h : store) a i v : item h a i = None → update h a i v = h.
Proof.
  unfold item, update. destruct (h !! a) as [l|] eqn:Ha; simpl; [|done].
  intros Hi. rewrite list_insert_ge by by apply lookup_ge_None. by apply insert_id.
Qed.

Lemma item_update (h : store) a i v b j :
  item (update h a i v) b j
  = if decide (a = b ∧ i = j) then (λ _, v) <$> item h a i else item h b j.
Proof.
  case_decide as Hc.
  - destruct Hc as [<- <-]. destruct (item h a i) as [x|] eqn:Hx.
    + by rewrite item_update_eq by by rewrite Hx.
    + by rewrite update_miss, Hx.
  - apply item_update_ne. destruct (decide (a = b)); [right|left]; naive_solver.
Qed.

Lemma update_update (h : store) a i v w :
  update (update h a i v) a i w = update h a i w.
Proof.
  unfold update. destruct (h !! a) as [l|] eqn:Ha; [|by rewrite Ha].
  by rewrite lookup_insert_eq, insert_insert_eq, list_insert_insert_eq.
Qed.

Lemma shape_update (h : store) a i v b : shape (update h a i v) b = shape h b.
Proof.
  unfold shape, update. destruct (h !! a) as [l|] eqn:Ha; [|done].
  destruct (decide (a = b)) as [<-|Hne].
  - by rewrite lookup_insert_eq, Ha; simpl; rewrite length_insert.
  - by rewrite lookup_insert_ne.
Qed.

Lemma setitem_state a i v st :
  (setitem a i v st).2 = State (self st) (update (heap st) a i v) (numeric st).
Proof.
  unfold setitem. destruct (item (heap st) a i) as [x|] eqn:Hx.
  - apply item_Some in Hx as (l & Ha & Hi). unfold update. rewrite Ha.
    by rewrite decide_True by by eapply lookup_lt_Some.
  - rewrite update_miss by done. unfold item in Hx.
    destruct (heap st !! a) as [l|]; simpl in *; [|by destruct st].
    rewrite decide_False; [by destruct st|]. apply lookup_ge_None in Hx. lia.
Qed.

Lemma ret_bind {A B} (x : A) (k : A → M O B) st : (mret x ≫= k) st = k x st.
Proof. reflexivity. Qed.

Lemma getattr_bind {A B} (f : O → A) (k : A → M O B) st :
  (getattr f ≫= k) st = k (f (self st)) st.
Proof. reflexivity. Qed.

Lemma getitem_item a i x st :
  item (heap st) a i = Some x → getitem a i st = (Ok x, st).
Proof. intros (l & Ha & Hi)%item_Some. by eapply getitem_ok. Qed.

Lemma getitem_bind {B} a i x (k : float → M O B) st :
  item (heap st) a i = Some x → (getitem a i ≫= k) st = k x st.
Proof. intros H. by apply bind_ok, getitem_item. Qed.

Lemma setitem_item a i v st :
  is_Some (item (heap st) a i) →
  setitem a i v st
  = (Ok tt, State (self st) (update (heap st) a i v) (numeric st)).
Proof.
  intros [x (l & Ha & Hi)%item_Some]. unfold update. rewrite Ha.
  apply setitem_ok; [done | by eapply lookup_lt_Some].
Qed.

Lemma setitem_bind {B} a i v (k : unit → M O B) st :
  is_Some (item (heap st) a i) →
  (setitem a i v ≫= k) st
  = k tt (State (self st) (update (heap st) a i v) (numeric st)).
Proof. intros H. by apply bind_ok, setitem_item. Qed.

(** A division completes on [float64], and on Python floats when the
    divisor is not a zero. *)
Lemma truediv_ok x y st :
  numeric st = Float64 ∨ is_zero y = false → truediv x y st = (Ok (x / y), st).
Proof.
  intros H. unfold truediv. destruct (is_zero y); [|done].
  by destruct H as [->|?].
Qed.

Lemma truediv_bind {B} x y (k : float → M O B) st :
  numeric st = Float64 ∨ is_zero y = false →
  (truediv x y ≫= k) st = k (x / y) st.
Proof. intros H. by apply bind_ok, truediv_ok. Qed.

Lemma truediv_raise x y st :
  numeric st = PyFloat → is_zero y = true →
  truediv x y st = (Raise ZeroDivisionError, st).
Proof. intros Hk Hy. unfold truediv. by rewrite Hy, Hk. Qed.

Lemma truediv_raise_bind {B} x y (k : float → M O B) st :
  numeric st = PyFloat → is_zero y = true →
  (truediv x y ≫= k) st = (Raise ZeroDivisionError, st).
Proof. intros Hk Hy. by apply bind_raise, truediv_raise. Qed.

Lemma iadd_item_item a i x (e : M O float) y st :
  item (heap st) a i = Some x → e st = (Ok y, st) →
  iadd_item a i e st
  = (Ok tt, State (self st) (update (heap st) a i (x + y)) (numeric st)).
Proof.
  intros Hx He. unfold iadd_item. rewrite (getitem_bind _ _ x) by done.
  rewrite (bind_ok _ _ _ _ _ He). by apply setitem_item.
Qed.

Lemma iadd_item_bind {B} a i x (e : M O float) y (k : unit → M O B) st :
  item (heap st) a i = Some x → e st = (Ok y, st) →
  (iadd_item a i e ≫= k) st
  = k tt (State (self st) (update (heap st) a i (x + y)) (numeric st)).
Proof. intros Hx He. by apply bind_ok, iadd_item_item. Qed.

Lemma getitem_short a i (l : list float) st :
  heap st !! a = Some l → (length l ≤ i)%nat →
  getitem a i st = (Raise IndexError, st).
Proof.
  intros Ha Hi. unfold getitem. rewrite Ha.
  by rewrite (lookup_ge_None_2 l i).
Qed.

Lemma setitem_short a i v (l : list float) st :
  heap st !! a = Some l → (length l ≤ i)%nat →
  setitem a i v st = (Raise IndexError, st).
Proof.
  intros Ha Hi. unfold setitem. rewrite Ha. rewrite decide_False; [done|lia].
Qed.

Lemma getitem_None a i st :
  item (heap st) a i = None → ∃ e, getitem a i st = (Raise e, st).
Proof.
  unfold item, getitem. destruct (heap st !! a) as [l|]; simpl; [|by eauto].
  intros ->. eauto.
Qed.

Lemma setitem_None a i v st :
  item (heap st) a i = None → ∃ e, setitem a i v st = (Raise e, st).
Proof.
  unfold item, setitem. destruct (heap st !! a) as [l|]; simpl; [|by eauto].
  intros Hi%lookup_ge_None. rewrite decide_False by lia. eauto.
Qed.

Lemma regroup3 {B} (m1 m2 m3 : M O unit) (k : M O B) st :
  (m1;; m2;; m3;; k) st = ((m1;; m2;; m3);; k) st.
Proof.
  unfold mbind, M_bind. destruct (m1 st) as [[[]|?] st1]; [|done].
  destruct (m2 st1) as [[[]|?] st2]; [|done].
  by destruct (m3 st2) as [[[]|?] st3].
Qed.

End exec.

Ltac unfold_stages :=
  unfold SummationDensity.initialize, SummationDensity.loop,
    BodyForce.initialize, BodyForce.loop,
    VelocityGradient2D.initialize, VelocityGradient2D.loop,
    IsothermalEOS.loop, ContinuityEquation.initialize, ContinuityEquation.loop,
    MonaghanArtificialViscosity.initialize, MonaghanArtificialViscosity.loop,
    MonaghanArtificialViscosity.piij_of,
    XSPHCorrection.initialize, XSPHCorrection.loop, XSPHCorrection.post_loop;
  cbv zeta.

(** * The claims *)

(** ** SummationDensity: the density is the running sum over the neighbours *)

Lemma density_loops_acc (o : Equation) (h : store) (k : operands)
    (d_rho s_m : ref) (i : nat) (rhos ms : list float)
    (nbrs : list (nat * float)) (acc : float) :
  d_rho ≠ s_m → (i < length rhos)%nat → h !! s_m = Some ms →
  Forall (λ p, (p.1 < length ms)%nat) nbrs →
  foreach nbrs (λ p, SummationDensity.loop i d_rho p.1 s_m p.2)
    (State o (<[d_rho := <[i := acc]> rhos]> h) k)
  = (Ok tt,
     State o (<[d_rho := <[i := accumulate (density_terms ms nbrs) acc]> rhos]> h) k).
Proof.
  intros Hne Hi Hm Hall. revert acc.
  induction Hall as [|[j w] nbrs Hj _ IH]; intros acc; [done|].
  destruct (lookup_lt_is_Some_2 ms j Hj) as [m Hmj].
  cbn [foreach]. erewrite bind_ok; last first.
  { unfold SummationDensity.loop. cbn [fst snd].
    eapply iadd_item_item with (y := m * w).
    - apply item_Some. exists (<[i := acc]> rhos). cbn [heap].
      split; [apply lookup_insert_eq | by apply list_lookup_insert_eq].
    - erewrite getitem_bind; [reflexivity|]. apply item_Some. exists ms.
      cbn [heap]. by rewrite lookup_insert_ne. }
  cbn [self heap numeric]. unfold update. rewrite lookup_insert_eq.
  rewrite insert_insert_eq, list_insert_insert_eq, IH.
  unfold density_terms, accumulate. rewrite fmap_cons. cbn [fold_left fst snd].
  by rewrite Hmj.
Qed.

(** C1, as the code has it: after [initialize] and one [loop] call per
    neighbour, [d_rho[i]] is the running sum
    [((0.0 + m1*W1) + m2*W2) + ...] of the terms [s_m[j] * WIJ], every
    product and every sum rounded to a double, in the order of the
    neighbours; [initialize] alone, or a pass with no neighbour, leaves
    [d_rho[i] = 0.0]. *)
Theorem summation_density_accumulates (o : Equation) (h : store) (k : operands)
    (d_rho s_m : ref) (i : nat) (rhos ms : list float) (nbrs : list (nat * float)) :
  d_rho ≠ s_m → h !! d_rho = Some rhos → (i < length rhos)%nat →
  h !! s_m = Some ms → Forall (λ p, (p.1 < length ms)%nat) nbrs →
  SummationDensity.initialize i d_rho (State o h k)
    = (Ok tt, State o (<[d_rho := <[i := 0]> rhos]> h) k)
  ∧ density_pass i d_rho s_m nbrs (State o h k)
    = (Ok tt,
       State o (<[d_rho := <[i := accumulate (density_terms ms nbrs) 0]> rhos]> h) k)
  ∧ density_pass i d_rho s_m [] (State o h k)
    = (Ok tt, State o (<[d_rho := <[i := 0]> rhos]> h) k).
Proof.
  intros Hne Hrho Hi Hm Hall.
  assert (Hinit : SummationDensity.initialize i d_rho (State o h k)
    = (Ok tt, State o (<[d_rho := <[i := 0]> rhos]> h) k)).
  { unfold SummationDensity.initialize. by erewrite setitem_ok. }
  split; [done|]. split.
  - unfold density_pass. erewrite bind_ok by exact Hinit.
    by rewrite (density_loops_acc o h k d_rho s_m i rhos ms nbrs 0).
  - unfold density_pass. by erewrite bind_ok by exact Hinit.
Qed.

(** C1 fails as stated: with masses [0.1], [0.2], [0.3] and [WIJ = 1] the
    pass leaves [0.6000000000000001], which is not the sum of the three
    terms, and the same neighbours in the reverse order leave [0.6]. *)
Lemma summation_density_not_exact_sum :
  let forwards := [(0%nat, 1); (1%nat, 1); (2%nat, 1)] in
  let backwards := [(2%nat, 1); (1%nat, 1); (0%nat, 1)] in
  let run nbrs :=
    item (heap (density_pass 0 ("drops", "rho") ("drops", "m") nbrs
                  (State plain drops PyFloat)).2) ("drops", "rho") 0 in
  run forwards = Some 0.6000000000000001
  ∧ is_exact_sum 0.6000000000000001 (density_terms [0.1; 0.2; 0.3] forwards) = false
  ∧ run backwards = Some 0.6
  ∧ (0.6000000000000001 =? 0.6) = false.
Proof. by vm_compute. Qed.

(** ** BodyForce: the force is added once per neighbour visit *)

Lemma add_times_S n f x : add_times (S n) f x = add_times n f (x + f).
Proof. unfold add_times. by rewrite Nat.iter_succ_r. Qed.

Lemma body_force_loop_step (o : BodyForce.t) (h : store) (k : operands)
    (d_au d_av d_aw : ref) (i : nat) (a b c : float) :
  d_au ≠ d_av → d_au ≠ d_aw → d_av ≠ d_aw →
  item h d_au i = Some a → item h d_av i = Some b → item h d_aw i = Some c →
  ∃ h', BodyForce.loop i d_au d_av d_aw (State o h k) = (Ok tt, State o h' k)
    ∧ item h' d_au i = Some (a + BodyForce.fx o)
    ∧ item h' d_av i = Some (b + BodyForce.fy o)
    ∧ item h' d_aw i = Some (c + BodyForce.fz o).
Proof.
  intros Huv Huw Hvw Ha Hb Hc. eexists. split.
  - unfold BodyForce.loop.
    erewrite iadd_item_bind; [|done|reflexivity].
    erewrite iadd_item_bind; [|by cbn; rewrite item_update_ne; eauto|reflexivity].
    erewrite iadd_item_item; [reflexivity| |reflexivity].
    cbn. rewrite !item_update_ne; eauto.
  - cbn. repeat split.
    + rewrite !item_update_ne by eauto. by apply item_update_eq.
    + rewrite item_update_ne by eauto. apply item_update_eq.
      rewrite item_update_ne; eauto.
    + apply item_update_eq. rewrite !item_update_ne; eauto.
Qed.

Lemma body_force_loops (o : BodyForce.t) (k : operands) (d_au d_av d_aw : ref)
    (i : nat) (nbrs : list nat) :
  d_au ≠ d_av → d_au ≠ d_aw → d_av ≠ d_aw →
  ∀ (h : store) (a b c : float),
  item h d_au i = Some a → item h d_av i = Some b → item h d_aw i = Some c →
  ∃ h', foreach nbrs (λ _, BodyForce.loop i d_au d_av d_aw) (State o h k)
        = (Ok tt, State o h' k)
    ∧ item h' d_au i = Some (add_times (length nbrs) (BodyForce.fx o) a)
    ∧ item h' d_av i = Some (add_times (length nbrs) (BodyForce.fy o) b)
    ∧ item h' d_aw i = Some (add_times (length nbrs) (BodyForce.fz o) c).
Proof.
  intros Huv Huw Hvw. induction nbrs as [|n nbrs IH]; intros h a b c Ha Hb Hc.
  - by exists h.
  - destruct (body_force_loop_step o h k d_au d_av d_aw i a b c)
      as (h1 & Hrun & Ha1 & Hb1 & Hc1); try done.
    destruct (IH h1 _ _ _ Ha1 Hb1 Hc1) as (h2 & Hrun2 & Ha2 & Hb2 & Hc2).
    exists h2. split.
    + cbn [foreach]. by erewrite bind_ok by exact Hrun.
    + cbn [length]. by rewrite !add_times_S.
Qed.

(** C4, as the code has it: after [initialize] and exactly N [loop] calls
    for particle [i], each accumulator holds its force component added N
    times to [0.0], [((0.0 + fx) + fx) + ...], every addition rounded: each
    neighbour visit adds the constant once. *)
Theorem body_force_accumulates (o : BodyForce.t) (h : store) (k : operands)
    (d_au d_av d_aw : ref) (i : nat) (nbrs : list nat) :
  d_au ≠ d_av → d_au ≠ d_aw → d_av ≠ d_aw →
  is_Some (item h d_au i) → is_Some (item h d_av i) → is_Some (item h d_aw i) →
  ∃ h', body_force_pass i d_au d_av d_aw nbrs (State o h k) = (Ok tt, State o h' k)
    ∧ item h' d_au i = Some (add_times (length nbrs) (BodyForce.fx o) 0)
    ∧ item h' d_av i = Some (add_times (length nbrs) (BodyForce.fy o) 0)
    ∧ item h' d_aw i = Some (add_times (length nbrs) (BodyForce.fz o) 0).
Proof.
  intros Huv Huw Hvw Ha Hb Hc.
  set (h0 := update (update (update h d_au i 0) d_av i 0) d_aw i 0).
  assert (Hinit : BodyForce.initialize i d_au d_av d_aw (State o h k)
                  = (Ok tt, State o h0 k)).
  { unfold BodyForce.initialize.
    rewrite setitem_bind by done.
    rewrite setitem_bind by (cbn; rewrite item_update_ne; eauto).
    rewrite setitem_item; [done|]. cbn. rewrite !item_update_ne; eauto. }
  destruct (body_force_loops o k d_au d_av d_aw i nbrs Huv Huw Hvw h0 0 0 0)
    as (h' & Hrun & Ha' & Hb' & Hc').
  - unfold h0. rewrite !item_update_ne by eauto. by apply item_update_eq.
  - unfold h0. rewrite item_update_ne by eauto. apply item_update_eq.
    rewrite item_update_ne; eauto.
  - apply item_update_eq. rewrite !item_update_ne; eauto.
  - exists h'. split; [|done].
    unfold body_force_pass. by erewrite bind_ok by exact Hinit.
Qed.

(** C4 fails as stated: with [fx = 0.1] and ten neighbour visits [d_au[0]]
    is [0.9999999999999999], and [10 * 0.1] is [1.0]. *)
Lemma body_force_not_a_product :
  item (heap (body_force_pass 0 ("fluid", "au") ("fluid", "av") ("fluid", "aw")
                (replicate 10 1%nat) (State wind fluid PyFloat)).2)
    ("fluid", "au") 0
  = Some 0.9999999999999999
  ∧ (10 * BodyForce.fx wind) = 1
  ∧ (0.9999999999999999 =? 10 * BodyForce.fx wind) = false.
Proof. by vm_compute. Qed.

(** ** IsothermalEOS: the pressure of the destination's own density *)

Lemma isothermal_eos_init (dest : string) (source : option string)
    (rho0 c0 : float) (sym : bool) (st0 : state IsothermalEOS.t) :
  let o := self (IsothermalEOS.init dest source rho0 c0 sym st0).2 in
  IsothermalEOS.rho0 o = rho0 ∧ IsothermalEOS.c0 o = c0
  ∧ IsothermalEOS.c02 o = c0 * c0
  ∧ IsothermalEOS.base o = {| dest := dest; source := source; symmetric := sym |}.
Proof. by destruct st0. Qed.

(** C5, as the code has it: after [loop],
    [d_p[i] = (c0*c0) * (d_rho[i] - rho0)] in doubles, for an equation
    constructed with [rho0] and [c0]; when [d_rho[i] == rho0], a finite
    number, and the square [c0*c0] has not overflowed, the pressure is a
    zero ([d_p[i] == 0]). *)
Theorem isothermal_eos_pressure (dest : string) (source : option string)
    (rho0 c0 : float) (sym : bool) (st0 : state IsothermalEOS.t) (h : store)
    (k : operands) (d_rho d_p : ref) (i : nat) (rho : float) :
  d_rho ≠ d_p → item h d_rho i = Some rho → is_Some (item h d_p i) →
  let o := self (IsothermalEOS.init dest source rho0 c0 sym st0).2 in
  ∃ h', IsothermalEOS.loop i d_rho d_p (State o h k) = (Ok tt, State o h' k)
    ∧ item h' d_rho i = Some rho
    ∧ item h' d_p i = Some (c0 * c0 * (rho - rho0))
    ∧ ((rho =? rho0) = true → is_finite rho = true → is_finite (c0 * c0) = true →
       is_zero (c0 * c0 * (rho - rho0)) = true
       ∧ (c0 * c0 * (rho - rho0) =? 0) = true).
Proof.
  intros Hne Hrho Hp o.
  destruct (isothermal_eos_init dest source rho0 c0 sym st0) as (Hr0 & _ & Hc02 & _).
  fold o in Hr0, Hc02.
  exists (update h d_p i (c0 * c0 * (rho - rho0))). split; [|split; [|split]].
  - unfold IsothermalEOS.loop. rewrite getattr_bind.
    rewrite (getitem_bind _ _ rho) by done. rewrite getattr_bind.
    cbn [self]. rewrite Hr0, Hc02. by rewrite setitem_item.
  - rewrite item_update_ne; eauto.
  - by apply item_update_eq.
  - intros Heq Hfin Hsq.
    assert (Hz : is_zero (c0 * c0 * (rho - rho0)) = true).
    { apply mul_zero_r; [done|]. apply sub_same_number; [|done].
      by apply eqb_same_number. }
    split; [done|]. by unfold is_zero in Hz.
Qed.

(** C5 fails as stated: for [c0 = 1e200] the square is [inf], and with
    [d_rho[0] == rho0 == 1000] the pressure is [nan], not [0]. *)
Lemma isothermal_eos_overflow :
  let o := self (IsothermalEOS.init "fluid" None 1000 1e200 false
                   (State water fluid PyFloat)).2 in
  let p := item (heap (IsothermalEOS.loop 0 ("fluid", "rho") ("fluid", "p")
                         (State o fluid PyFloat)).2) ("fluid", "p") 0 in
  item fluid ("fluid", "rho") 0 = Some (IsothermalEOS.rho0 o)
  ∧ IsothermalEOS.c02 o = infinity
  ∧ p = Some nan
  ∧ (nan =? 0) = false.
Proof. by vm_compute. Qed.

(** ** XSPHCorrection: the reset *)

(** C8: two [initialize] calls in a row for the same particle leave [d_ax[i]],
    [d_ay[i]] and [d_az[i]] at [0] after each of them; the second call
    changes nothing. *)
Theorem xsph_initialize_idempotent (o : XSPHCorrection.t) (h : store)
    (k : operands) (d_ax d_ay d_az : ref) (i : nat) :
  is_Some (item h d_ax i) → is_Some (item h d_ay i) → is_Some (item h d_az i) →
  ∃ h1, XSPHCorrection.initialize i d_ax d_ay d_az (State o h k)
        = (Ok tt, State o h1 k)
    ∧ item h1 d_ax i = Some 0 ∧ item h1 d_ay i = Some 0 ∧ item h1 d_az i = Some 0
    ∧ XSPHCorrection.initialize i d_ax d_ay d_az (State o h1 k)
      = (Ok tt, State o h1 k).
Proof.
  intros Hx Hy Hz.
  assert (Hset : ∀ (g : store) a b v, is_Some (item g b i) →
            is_Some (item (update g a i v) b i)).
  { intros g a b v Hb. destruct (decide (a = b)) as [<-|Hab].
    - by rewrite item_update_eq.
    - by rewrite item_update_ne by eauto. }
  assert (Hzero : ∀ (g : store) a b, is_Some (item g a i) → item g b i = Some 0 →
            item (update g a i 0) b i = Some 0).
  { intros g a b Ha Hb. destruct (decide (a = b)) as [<-|Hab].
    - by rewrite item_update_eq.
    - by rewrite item_update_ne by eauto. }
  set (h1 := update (update (update h d_ax i 0) d_ay i 0) d_az i 0).
  assert (Hax : item h1 d_ax i = Some 0).
  { unfold h1. apply Hzero; [by auto|]. apply Hzero; [by auto|].
    by apply item_update_eq. }
  assert (Hay : item h1 d_ay i = Some 0).
  { unfold h1. apply Hzero; [by auto|]. apply item_update_eq. by auto. }
  assert (Haz : item h1 d_az i = Some 0).
  { unfold h1. apply item_update_eq. by auto. }
  exists h1. repeat split; try done.
  - unfold XSPHCorrection.initialize.
    rewrite setitem_bind by done. rewrite setitem_bind by (cbn; auto).
    rewrite setitem_item by (cbn; auto). done.
  - unfold XSPHCorrection.initialize.
    rewrite setitem_bind by (cbn; by rewrite Hax). cbn [self heap numeric].
    rewrite (update_id h1 d_ax) by done.
    rewrite setitem_bind by (cbn; by rewrite Hay). cbn [self heap numeric].
    rewrite (update_id h1 d_ay) by done.
    rewrite setitem_item by (cbn; by rewrite Haz). cbn [self heap numeric].
    by rewrite (update_id h1 d_az).
Qed.

(** ** VelocityGradient2D: the third components are not read *)

(** C6: two [loop] calls that differ only in [VIJ[2]] and [DWIJ[2]] have the
    same outcome and leave the same store, hence make the same updates to
    [d_v00], [d_v01], [d_v10] and [d_v11]. *)
Theorem velocity_gradient_ignores_third (st : state Equation)
    (d_idx s_idx : nat) (s_m s_rho d_v00 d_v01 d_v10 d_v11 : ref)
    (dw0 dw1 dw2 dw2' v0 v1 v2 v2' : float) :
  VelocityGradient2D.loop d_idx s_idx s_m s_rho d_v00 d_v01 d_v10 d_v11
    (Vec3 dw0 dw1 dw2) (Vec3 v0 v1 v2) st
  = VelocityGradient2D.loop d_idx s_idx s_m s_rho d_v00 d_v01 d_v10 d_v11
    (Vec3 dw0 dw1 dw2') (Vec3 v0 v1 v2') st.
Proof. reflexivity. Qed.

(** ** The equation object is never written by a stage *)

Section frame.
Context {O : Type}.

Lemma keeps_self_ret {A} (x : A) : keeps_self (mret x : M O A).
Proof. done. Qed.

Lemma keeps_self_raise {A} e : keeps_self (raise e : M O A).
Proof. done. Qed.

Lemma keeps_self_getattr {A} (f : O → A) : keeps_self (getattr f).
Proof. done. Qed.

Lemma keeps_self_getitem a i : keeps_self (getitem a i : M O float).
Proof. intros st. unfold getitem. by repeat case_match. Qed.

Lemma keeps_self_setitem a i v : keeps_self (setitem a i v : M O unit).
Proof. intros st. unfold setitem. by repeat case_match. Qed.

Lemma keeps_self_truediv x y : keeps_self (truediv x y : M O float).
Proof. intros st. unfold truediv. by repeat case_match. Qed.

Lemma keeps_self_bind {A B} (m : M O A) (k : A → M O B) :
  keeps_self m → (∀ x, keeps_self (k x)) → keeps_self (m ≫= k).
Proof.
  intros Hm Hk st. specialize (Hm st). unfold mbind, M_bind.
  destruct (m st) as [[x|e] st']; simpl in *; [|done].
  by rewrite Hk.
Qed.

Lemma keeps_self_iadd_item a i (e : M O float) :
  keeps_self e → keeps_self (iadd_item a i e).
Proof.
  intros He. unfold iadd_item.
  apply keeps_self_bind; [apply keeps_self_getitem | intros x].
  apply keeps_self_bind; [done | intros y]. apply keeps_self_setitem.
Qed.

Lemma keeps_self_foreach {X} (l : list X) (body : X → M O unit) :
  (∀ x, keeps_self (body x)) → keeps_self (foreach l body).
Proof.
  intros Hbody. induction l as [|x l IH]; [done|].
  cbn [foreach]. by apply keeps_self_bind.
Qed.

End frame.

Ltac frame :=
  repeat first
    [ apply keeps_self_ret | apply keeps_self_raise | apply keeps_self_getattr
    | apply keeps_self_getitem | apply keeps_self_setitem
    | apply keeps_self_truediv | apply keeps_self_iadd_item
    | apply keeps_self_bind; [|intros ?]
    | match goal with |- keeps_self (if ?b then _ else _) => destruct b end ].

(** C9: no call of [initialize], [loop] or [post_loop] of any of the seven
    equations changes the equation object, so the parameters set at
    construction ([fx], [fy], [fz], [rho0], [c0], [c02], [alpha], [beta],
    [eta], [eps], [symmetric]) are as they were, also when the call raises. *)
Theorem parameters_unchanged :
  (∀ i d_rho, keeps_self (SummationDensity.initialize i d_rho))
  ∧ (∀ i d_rho j s_m WIJ, keeps_self (SummationDensity.loop i d_rho j s_m WIJ))
  ∧ (∀ i d_au d_av d_aw, keeps_self (BodyForce.initialize i d_au d_av d_aw))
  ∧ (∀ i d_au d_av d_aw, keeps_self (BodyForce.loop i d_au d_av d_aw))
  ∧ (∀ i d_v00 d_v01 d_v10 d_v11,
       keeps_self (VelocityGradient2D.initialize i d_v00 d_v01 d_v10 d_v11))
  ∧ (∀ i j s_m s_rho d_v00 d_v01 d_v10 d_v11 DWIJ VIJ,
       keeps_self (VelocityGradient2D.loop i j s_m s_rho d_v00 d_v01 d_v10 d_v11
                     DWIJ VIJ))
  ∧ (∀ i d_rho d_p, keeps_self (IsothermalEOS.loop i d_rho d_p))
  ∧ (∀ i d_arho, keeps_self (ContinuityEquation.initialize i d_arho))
  ∧ (∀ i d_arho j s_m d_m s_arho DWIJ VIJ,
       keeps_self (ContinuityEquation.loop i d_arho j s_m d_m s_arho DWIJ VIJ))
  ∧ (∀ i d_au d_av d_aw,
       keeps_self (MonaghanArtificialViscosity.initialize i d_au d_av d_aw))
  ∧ (∀ i j d_rho d_cs d_au d_av d_aw s_m s_rho s_cs VIJ XIJ HIJ R2IJ RHOIJ1
       DWIJ DT_ADAPT,
       keeps_self (MonaghanArtificialViscosity.loop i j d_rho d_cs d_au d_av d_aw
                     s_m s_rho s_cs VIJ XIJ HIJ R2IJ RHOIJ1 DWIJ DT_ADAPT))
  ∧ (∀ i d_ax d_ay d_az, keeps_self (XSPHCorrection.initialize i d_ax d_ay d_az))
  ∧ (∀ j i s_m d_ax d_ay d_az d_m s_ax s_ay s_az WIJ RHOIJ1 VIJ,
       keeps_self (XSPHCorrection.loop j i s_m d_ax d_ay d_az d_m s_ax s_ay s_az
                     WIJ RHOIJ1 VIJ))
  ∧ (∀ i d_ax d_ay d_az d_u d_v d_w,
       keeps_self (XSPHCorrection.post_loop i d_ax d_ay d_az d_u d_v d_w)).
Proof.
  repeat split; intros; unfold_stages; frame.
Qed.

(** ** MonaghanArtificialViscosity: the switch on separating pairs *)

Section reads.
Context {O : Type}.

Lemma reads_only_getitem a i : reads_only (λ _, True) (getitem a i : M O float).
Proof. intros st. unfold getitem. by repeat case_match. Qed.

Lemma reads_only_truediv x y : reads_only (λ _, True) (truediv x y : M O float).
Proof. intros st. unfold truediv. by repeat case_match. Qed.



Lemma same_values_refl (st : state O) : same_values st st.
Proof.
  split; [done|]. split; [done|]. intros a i.
  destruct (item (heap st) a i); constructor. apply same_number_refl.
Qed.

(** [a[i] += e] keeps the numbers of the store when [e] yields a zero: the
    element is the same number, or a zero of the other sign. *)
Lemma same_values_update (st0 st : state O) a i x z :
  same_values st0 st → item (heap st) a i = Some x → is_zero z = true →
  same_values st0 (State (self st) (update (heap st) a i (x + z)) (numeric st)).
Proof.
  intros (Hself & Hnum & Hsame) Hx Hz. split; [done|]. split; [done|].
  intros b j. cbn [heap]. rewrite item_update. case_decide as Hc.
  - destruct Hc as [<- <-]. specialize (Hsame a i). rewrite Hx in *. simpl.
    inversion Hsame as [x0 ? Hx0|]; subst. constructor.
    eapply same_number_trans; [done|]. by apply same_number_sym, add_zero_r.
  - apply Hsame.
Qed.

End reads.

Lemma monaghan_piij_separating (st : state MonaghanArtificialViscosity.t)
    (vijdotxij : float) (d_idx s_idx : nat) (d_cs s_cs : ref)
    (HIJ R2IJ RHOIJ1 : float) :
  (vijdotxij <? 0) = false →
  MonaghanArtificialViscosity.piij_of vijdotxij d_idx s_idx d_cs s_cs HIJ R2IJ RHOIJ1 st
  = (Ok 0, st).
Proof.
  intros Hsep. unfold MonaghanArtificialViscosity.piij_of. by rewrite Hsep.
Qed.



(** ** ContinuityEquation: the symmetric pair *)

Lemma continuity_loop_symmetric (o : Equation) (h : store) (k : operands)
    (d_arho s_arho s_m d_m : ref) (i j : nat) (md ms a b : float)
    (DWIJ VIJ : vec3) :
  symmetric o = true → d_arho ≠ s_arho ∨ i ≠ j → d_arho ≠ d_m →
  item h d_m i = Some md → item h s_m j = Some ms →
  item h d_arho i = Some a → item h s_arho j = Some b →
  ∃ h', ContinuityEquation.loop i d_arho j s_m d_m s_arho DWIJ VIJ (State o h k)
        = (Ok tt, State o h' k)
    ∧ item h' d_arho i = Some (a + ms * dot DWIJ VIJ)
    ∧ item h' s_arho j = Some (b + - md * dot DWIJ VIJ).
Proof.
  intros Hon Hpair Hdm Hmd Hms Ha Hb.
  assert (Hpair' : s_arho ≠ d_arho ∨ j ≠ i) by (destruct Hpair; [left|right]; congruence).
  eexists. split; [|split].
  - unfold ContinuityEquation.loop. cbv zeta.
    erewrite iadd_item_bind; [|done|by rewrite (getitem_bind _ _ ms)].
    rewrite getattr_bind. cbn [self heap]. rewrite Hon.
    erewrite iadd_item_item; [reflexivity| |].
    + cbn. by rewrite item_update_ne by done.
    + rewrite (getitem_bind _ _ md); [done|]. cbn.
      by rewrite item_update_ne by eauto.
  - cbn. rewrite item_update_ne by done. apply item_update_eq. by rewrite Ha.
  - cbn. apply item_update_eq. rewrite item_update_ne by done. by rewrite Hb.
Qed.


(** ** MonaghanArtificialViscosity: the densities are read and not used *)

Section blindness.
Context {O : Type} (D : ref → Prop).

Lemma blind_ret {A} (x : A) : blind D (mret x : M O A).
Proof. by intros st1 st2 ???. Qed.

Lemma blind_getattr {A} (f : O → A) : blind D (getattr f).
Proof. intros st1 st2 Hself ??. unfold getattr. simpl. by rewrite Hself. Qed.

Lemma blind_truediv x y : blind D (truediv x y : M O float).
Proof.
  intros st1 st2 ? Hk ?. unfold truediv. rewrite Hk.
  destruct (is_zero y); [|done]. by destruct (numeric st2) eqn:E; simpl; rewrite ?E.
Qed.

Lemma blind_getitem a i : ¬ D a → blind D (getitem a i : M O float).
Proof.
  intros Ha st1 st2 Hself Hk Hag. unfold getitem. rewrite (Hag a Ha).
  by repeat case_match.
Qed.

Lemma agree_off_insert (h1 h2 : store) a l :
  agree_off D h1 h2 → agree_off D (<[a := l]> h1) (<[a := l]> h2).
Proof.
  intros Hag r Hr. destruct (decide (a = r)) as [->|Hne].
  - by rewrite !lookup_insert_eq.
  - rewrite !lookup_insert_ne by done. by apply Hag.
Qed.

Lemma blind_setitem a i v : ¬ D a → blind D (setitem a i v : M O unit).
Proof.
  intros Ha st1 st2 Hself Hk Hag. unfold setitem. rewrite (Hag a Ha).
  destruct (heap st2 !! a) as [l|]; [|done].
  case_decide; [|done]. simpl. by auto using agree_off_insert.
Qed.

Lemma blind_bind {A B} (m : M O A) (k : A → M O B) :
  blind D m → (∀ x, blind D (k x)) → blind D (m ≫= k).
Proof.
  intros Hm Hk st1 st2 Hself Hnum Hag.
  destruct (Hm st1 st2 Hself Hnum Hag) as (Hout & Hself' & Hnum' & Hag').
  unfold mbind, M_bind.
  destruct (m st1) as [o1 st1'], (m st2) as [o2 st2']. simpl in *. subst o2.
  destruct o1 as [x|e]; [by apply Hk | done].
Qed.

Lemma blind_iadd_item a i (e : M O float) :
  ¬ D a → blind D e → blind D (iadd_item a i e).
Proof.
  intros Ha He. unfold iadd_item.
  apply blind_bind; [by apply blind_getitem | intros x].
  apply blind_bind; [done | intros y]. by apply blind_setitem.
Qed.

End blindness.

(** C10, as the code has it: two [loop] calls on stores that differ only in
    the arrays [d_rho] and [s_rho] have the same outcome and leave every
    other array, so [d_au], [d_av] and [d_aw], the same, when the operands
    are [float64] or the squares [d_rho[i]*d_rho[i]] and [s_rho[j]*s_rho[j]]
    are not zero in both: [rhoi21] and [rhoj21] are computed and not
    used. *)
Theorem monaghan_ignores_density (o : MonaghanArtificialViscosity.t)
    (k : operands) (h1 h2 : store) (d_idx s_idx : nat)
    (d_rho d_cs d_au d_av d_aw s_m s_rho s_cs : ref)
    (VIJ XIJ : vec3) (HIJ R2IJ RHOIJ1 : float) (DWIJ DT_ADAPT : vec3)
    (a1 b1 a2 b2 : float) :
  Forall (λ r, ¬ density_arrays d_rho s_rho r) [d_cs; s_cs; d_au; d_av; d_aw; s_m] →
  agree_off (density_arrays d_rho s_rho) h1 h2 →
  item h1 d_rho d_idx = Some a1 → item h1 s_rho s_idx = Some b1 →
  item h2 d_rho d_idx = Some a2 → item h2 s_rho s_idx = Some b2 →
  k = Float64
  ∨ (is_zero (a1 * a1) = false ∧ is_zero (b1 * b1) = false
     ∧ is_zero (a2 * a2) = false ∧ is_zero (b2 * b2) = false) →
  let run := MonaghanArtificialViscosity.loop d_idx s_idx d_rho d_cs d_au d_av
               d_aw s_m s_rho s_cs VIJ XIJ HIJ R2IJ RHOIJ1 DWIJ DT_ADAPT in
  (run (State o h1 k)).1 = (run (State o h2 k)).1
  ∧ agree_off (density_arrays d_rho s_rho)
      (heap (run (State o h1 k)).2) (heap (run (State o h2 k)).2)
  ∧ heap (run (State o h1 k)).2 !! d_au = heap (run (State o h2 k)).2 !! d_au
  ∧ heap (run (State o h1 k)).2 !! d_av = heap (run (State o h2 k)).2 !! d_av
  ∧ heap (run (State o h1 k)).2 !! d_aw = heap (run (State o h2 k)).2 !! d_aw.
Proof.
  intros Hrefs Hag Ha1 Hb1 Ha2 Hb2 Hsq run.
  set (D := density_arrays d_rho s_rho) in *.
  apply Forall_cons in Hrefs as [Hdcs Hrefs].
  apply Forall_cons in Hrefs as [Hscs Hrefs].
  apply Forall_cons in Hrefs as [Hau Hrefs].
  apply Forall_cons in Hrefs as [Hav Hrefs].
  apply Forall_cons in Hrefs as [Haw Hrefs].
  apply Forall_cons in Hrefs as [Hsm _].
  set (rest := (
    piij ← MonaghanArtificialViscosity.piij_of (dot VIJ XIJ) d_idx s_idx d_cs s_cs
              HIJ R2IJ RHOIJ1;
    iadd_item d_au d_idx (m ← getitem s_m s_idx; mret (- m * piij * elt0 DWIJ));;
    iadd_item d_av d_idx (m ← getitem s_m s_idx; mret (- m * piij * elt1 DWIJ));;
    iadd_item d_aw d_idx (m ← getitem s_m s_idx; mret (- m * piij * elt2 DWIJ)))
    : M MonaghanArtificialViscosity.t unit).
  assert (Hrun : ∀ h a b, item h d_rho d_idx = Some a → item h s_rho s_idx = Some b →
            k = Float64 ∨ (is_zero (a * a) = false ∧ is_zero (b * b) = false) →
            run (State o h k) = rest (State o h k)).
  { intros h a b Ha Hb Hab. unfold run, MonaghanArtificialViscosity.loop.
    rewrite !(getitem_bind _ _ a) by done.
    rewrite truediv_bind by (destruct Hab as [?|[??]]; auto).
    rewrite !(getitem_bind _ _ b) by done.
    rewrite truediv_bind by (destruct Hab as [?|[??]]; auto). done. }
  assert (Hblind : blind D rest).
  { assert (Hterm : ∀ a piij w, ¬ D a →
      blind D (iadd_item a d_idx (m ← getitem s_m s_idx; mret (- m * piij * w))
               : M MonaghanArtificialViscosity.t unit)).
    { intros a piij w Ha. apply blind_iadd_item; [done|].
      apply blind_bind; [by apply blind_getitem | intros m; apply blind_ret]. }
    unfold rest. apply blind_bind.
    - unfold MonaghanArtificialViscosity.piij_of.
      destruct (dot VIJ XIJ <? 0); [|apply blind_ret].
      apply blind_bind; [by apply blind_getitem | intros ci].
      apply blind_bind; [by apply blind_getitem | intros cj]. cbv zeta.
      apply blind_bind; [apply blind_getattr | intros e].
      apply blind_bind; [apply blind_getattr | intros e'].
      apply blind_bind; [apply blind_truediv | intros muij].
      apply blind_bind; [apply blind_getattr | intros a].
      apply blind_bind; [apply blind_getattr | intros b]. apply blind_ret.
    - intros piij.
      apply blind_bind; [by apply Hterm | intros _].
      apply blind_bind; [by apply Hterm | intros _]. by apply Hterm. }
  rewrite (Hrun h1 a1 b1), (Hrun h2 a2 b2) by (try done; destruct Hsq as [?|(?&?&?&?)]; auto).
  destruct (Hblind (State o h1 k) (State o h2 k)) as (Hout & _ & _ & Hag'); [done..|].
  repeat split; [done | done | by apply Hag'..].
Qed.

(** C10, the claim as stated, on Python floats: the density [1e-200] is not
    zero, its square is, so the call raises [ZeroDivisionError] at [rhoi21]
    and leaves [d_au[0]] at [5.0]; the same call with the density [1000.0]
    completes and leaves [d_au[0]] at [-16.762572296833643].  The two stores
    differ in [d_rho[0]] only. *)
Lemma monaghan_underflowing_density :
  let run h := MonaghanArtificialViscosity.loop 0 1 ("fluid", "rho") ("fluid", "cs")
                 ("fluid", "au") ("fluid", "av") ("fluid", "aw") ("fluid", "m")
                 ("fluid", "rho") ("fluid", "cs") closing e_x 1 1 1 e_x e_x
                 (State viscous h PyFloat) in
  agree_off (density_arrays ("fluid", "rho") ("fluid", "rho")) fluid_thin fluid
  ∧ item fluid_thin ("fluid", "rho") 0 = Some 1e-200
  ∧ item fluid ("fluid", "rho") 0 = Some 1000
  ∧ is_zero 1e-200 = false ∧ is_zero 1000 = false
  ∧ (run fluid_thin).1 = Raise ZeroDivisionError
  ∧ item (heap (run fluid_thin).2) ("fluid", "au") 0 = Some 5
  ∧ (run fluid).1 = Ok tt
  ∧ item (heap (run fluid).2) ("fluid", "au") 0 = Some (-16.762572296833643)
  ∧ (5 =? -16.762572296833643) = false.
Proof.
  split; [|by vm_compute].
  intros r Hr. unfold fluid_thin. apply lookup_insert_ne.
  intros <-. apply Hr. by left.
Qed.

(** ** Divisions by a zero density *)



(** [VelocityGradient2D.loop], run: the four tensor cells receive
    [(s_m[j]/s_rho[j]) * (-VIJ[a]) * DWIJ[b]]. *)
Lemma velocity_gradient_run (o : Equation) (h : store) (k : operands)
    (d_idx s_idx : nat) (s_m s_rho d_v00 d_v01 d_v10 d_v11 : ref)
    (DWIJ VIJ : vec3) (m rho a00 a01 a10 a11 : float) :
  NoDup [d_v00; d_v01; d_v10; d_v11] →
  item h s_m s_idx = Some m → item h s_rho s_idx = Some rho →
  k = Float64 ∨ is_zero rho = false →
  item h d_v00 d_idx = Some a00 → item h d_v01 d_idx = Some a01 →
  item h d_v10 d_idx = Some a10 → item h d_v11 d_idx = Some a11 →
  ∃ h', VelocityGradient2D.loop d_idx s_idx s_m s_rho d_v00 d_v01 d_v10 d_v11
          DWIJ VIJ (State o h k)
        = (Ok tt, State o h' k)
    ∧ item h' d_v00 d_idx = Some (a00 + m / rho * - elt0 VIJ * elt0 DWIJ)
    ∧ item h' d_v01 d_idx = Some (a01 + m / rho * - elt0 VIJ * elt1 DWIJ)
    ∧ item h' d_v10 d_idx = Some (a10 + m / rho * - elt1 VIJ * elt0 DWIJ)
    ∧ item h' d_v11 d_idx = Some (a11 + m / rho * - elt1 VIJ * elt1 DWIJ).
Proof.
  intros Hnd Hm Hrho Hrho0 H00 H01 H10 H11.
  assert (d_v00 ≠ d_v01 ∧ d_v00 ≠ d_v10 ∧ d_v00 ≠ d_v11 ∧ d_v01 ≠ d_v10
          ∧ d_v01 ≠ d_v11 ∧ d_v10 ≠ d_v11) as (N1 & N2 & N3 & N4 & N5 & N6).
  { apply NoDup_cons in Hnd as [Ha Hnd]. apply NoDup_cons in Hnd as [Hb Hnd].
    apply NoDup_cons in Hnd as [Hc _].
    repeat rewrite not_elem_of_cons in Ha. repeat rewrite not_elem_of_cons in Hb.
    repeat rewrite not_elem_of_cons in Hc. tauto. }
  eexists. split.
  - unfold VelocityGradient2D.loop.
    rewrite (getitem_bind _ _ m), (getitem_bind _ _ rho) by done.
    rewrite truediv_bind by exact Hrho0.
    erewrite iadd_item_bind; [|done|reflexivity].
    erewrite iadd_item_bind; [|by cbn; rewrite !item_update_ne by eauto|reflexivity].
    erewrite iadd_item_bind; [|by cbn; rewrite !item_update_ne by eauto|reflexivity].
    erewrite iadd_item_item; [reflexivity| |reflexivity].
    cbn. by rewrite !item_update_ne by eauto.
  - cbn. repeat split.
    + rewrite !item_update_ne by eauto. apply item_update_eq. by rewrite H00.
    + rewrite !item_update_ne by eauto. apply item_update_eq.
      rewrite !item_update_ne by eauto. by rewrite H01.
    + rewrite !item_update_ne by eauto. apply item_update_eq.
      rewrite !item_update_ne by eauto. by rewrite H10.
    + apply item_update_eq. rewrite !item_update_ne by eauto. by rewrite H11.
Qed.



(** ** What a stage may change *)

Section footprint.
Context {O : Type} (I : state O → state O → Prop).
Context `{!Reflexive I, !Transitive I}.

Lemma steps_reads {A} (P : A → Prop) (m : M O A) : reads_only P m → steps I m.
Proof. intros Hm st. by rewrite (proj1 (Hm st)). Qed.

Lemma steps_ret {A} (x : A) : steps I (mret x : M O A).
Proof. by intros st. Qed.

Lemma steps_getattr {A} (f : O → A) : steps I (getattr f).
Proof. by intros st. Qed.

Lemma steps_getitem a i : steps I (getitem a i).
Proof. eapply steps_reads, reads_only_getitem. Qed.

Lemma steps_truediv x y : steps I (truediv x y).
Proof. eapply steps_reads, reads_only_truediv. Qed.

Lemma steps_setitem a i v : write_ok I a i → steps I (setitem a i v).
Proof. intros Hw st. rewrite setitem_state. apply Hw. Qed.

Lemma steps_bind {A B} (m : M O A) (k : A → M O B) :
  steps I m → (∀ x, steps I (k x)) → steps I (m ≫= k).
Proof.
  intros Hm Hk st. specialize (Hm st). unfold mbind, M_bind.
  destruct (m st) as [[x|e] st']; simpl in *; [|done].
  by etrans; [|apply Hk].
Qed.

Lemma steps_iadd_item a i (e : M O float) :
  write_ok I a i → steps I e → steps I (iadd_item a i e).
Proof.
  intros Hw He. unfold iadd_item.
  apply steps_bind; [apply steps_getitem | intros x].
  apply steps_bind; [done | intros y]. by apply steps_setitem.
Qed.

End footprint.

Global Instance same_shape_refl {O} : Reflexive (@same_shape O).
Proof. by intros st a. Qed.
Global Instance same_shape_trans {O} : Transitive (@same_shape O).
Proof. intros st1 st2 st3 H12 H23 a. by rewrite H23. Qed.
Global Instance same_off_refl {O} W : Reflexive (@same_off O W).
Proof. by intros st a i ?. Qed.
Global Instance same_off_trans {O} W : Transitive (@same_off O W).
Proof. intros st1 st2 st3 H12 H23 a i ?. by rewrite H23, H12. Qed.

Lemma write_ok_shape {O} a i : write_ok (@same_shape O) a i.
Proof. intros v st b. apply shape_update. Qed.

Lemma write_ok_off {O} W a i : (a, i) ∈ W → write_ok (@same_off O W) a i.
Proof.
  intros Hin v st b j Hout. simpl. rewrite item_update.
  rewrite decide_False; [done|]. intros [-> ->]. done.
Qed.

Ltac footprint side :=
  repeat first
    [ apply steps_ret | apply steps_getattr | apply steps_getitem
    | apply steps_truediv
    | match goal with
      | |- Reflexive _ => apply _
      | |- Transitive _ => apply _
      | |- write_ok _ _ _ => solve [side]
      | |- ∀ _, _ => intros ?
      | |- steps _ (if ?b then _ else _) => destruct b
      end
    | apply steps_setitem | apply steps_iadd_item | apply steps_bind ].

(** X1: no stage of any equation adds, removes or resizes an array: every
    array of the store has the same length after the call as before, also
    when the call raises. *)
Theorem stages_keep_shape :
  (∀ i d_rho, steps same_shape (SummationDensity.initialize i d_rho))
  ∧ (∀ i d_rho j s_m WIJ, steps same_shape (SummationDensity.loop i d_rho j s_m WIJ))
  ∧ (∀ i d_au d_av d_aw, steps same_shape (BodyForce.initialize i d_au d_av d_aw))
  ∧ (∀ i d_au d_av d_aw, steps same_shape (BodyForce.loop i d_au d_av d_aw))
  ∧ (∀ i d_v00 d_v01 d_v10 d_v11,
       steps same_shape (VelocityGradient2D.initialize i d_v00 d_v01 d_v10 d_v11))
  ∧ (∀ i j s_m s_rho d_v00 d_v01 d_v10 d_v11 DWIJ VIJ,
       steps same_shape (VelocityGradient2D.loop i j s_m s_rho d_v00 d_v01 d_v10
                           d_v11 DWIJ VIJ))
  ∧ (∀ i d_rho d_p, steps same_shape (IsothermalEOS.loop i d_rho d_p))
  ∧ (∀ i d_arho, steps same_shape (ContinuityEquation.initialize i d_arho))
  ∧ (∀ i d_arho j s_m d_m s_arho DWIJ VIJ,
       steps same_shape (ContinuityEquation.loop i d_arho j s_m d_m s_arho DWIJ VIJ))
  ∧ (∀ i d_au d_av d_aw,
       steps same_shape (MonaghanArtificialViscosity.initialize i d_au d_av d_aw))
  ∧ (∀ i j d_rho d_cs d_au d_av d_aw s_m s_rho s_cs VIJ XIJ HIJ R2IJ RHOIJ1
       DWIJ DT_ADAPT,
       steps same_shape (MonaghanArtificialViscosity.loop i j d_rho d_cs d_au d_av
                           d_aw s_m s_rho s_cs VIJ XIJ HIJ R2IJ RHOIJ1 DWIJ DT_ADAPT))
  ∧ (∀ i d_ax d_ay d_az, steps same_shape (XSPHCorrection.initialize i d_ax d_ay d_az))
  ∧ (∀ j i s_m d_ax d_ay d_az d_m s_ax s_ay s_az WIJ RHOIJ1 VIJ,
       steps same_shape (XSPHCorrection.loop j i s_m d_ax d_ay d_az d_m s_ax s_ay
                           s_az WIJ RHOIJ1 VIJ))
  ∧ (∀ i d_ax d_ay d_az d_u d_v d_w,
       steps same_shape (XSPHCorrection.post_loop i d_ax d_ay d_az d_u d_v d_w)).
Proof.
  repeat split; intros; unfold_stages; footprint ltac:(apply write_ok_shape).
Qed.

(** X2: the cells a stage may write.  Every element of the store other than
    the destination accumulators at [d_idx] (and, for the two equations with
    a reaction term, the source accumulators at [s_idx]) is the same after
    the call, also when the call raises; the input arrays [s_m], [s_rho],
    [d_rho], [d_cs], [s_cs], [d_m], [d_u], [d_v], [d_w] are never written
    unless they are passed as an accumulator too. *)
Theorem stages_write_footprint :
  (∀ i d_rho, steps (same_off [(d_rho, i)]) (SummationDensity.initialize i d_rho))
  ∧ (∀ i d_rho j s_m WIJ,
       steps (same_off [(d_rho, i)]) (SummationDensity.loop i d_rho j s_m WIJ))
  ∧ (∀ i d_au d_av d_aw,
       steps (same_off [(d_au, i); (d_av, i); (d_aw, i)])
         (BodyForce.initialize i d_au d_av d_aw))
  ∧ (∀ i d_au d_av d_aw,
       steps (same_off [(d_au, i); (d_av, i); (d_aw, i)])
         (BodyForce.loop i d_au d_av d_aw))
  ∧ (∀ i d_v00 d_v01 d_v10 d_v11,
       steps (same_off [(d_v00, i); (d_v01, i); (d_v10, i); (d_v11, i)])
         (VelocityGradient2D.initialize i d_v00 d_v01 d_v10 d_v11))
  ∧ (∀ i j s_m s_rho d_v00 d_v01 d_v10 d_v11 DWIJ VIJ,
       steps (same_off [(d_v00, i); (d_v01, i); (d_v10, i); (d_v11, i)])
         (VelocityGradient2D.loop i j s_m s_rho d_v00 d_v01 d_v10 d_v11 DWIJ VIJ))
  ∧ (∀ i d_rho d_p, steps (same_off [(d_p, i)]) (IsothermalEOS.loop i d_rho d_p))
  ∧ (∀ i d_arho, steps (same_off [(d_arho, i)]) (ContinuityEquation.initialize i d_arho))
  ∧ (∀ i d_arho j s_m d_m s_arho DWIJ VIJ,
       steps (same_off [(d_arho, i); (s_arho, j)])
         (ContinuityEquation.loop i d_arho j s_m d_m s_arho DWIJ VIJ))
  ∧ (∀ i d_au d_av d_aw,
       steps (same_off [(d_au, i); (d_av, i); (d_aw, i)])
         (MonaghanArtificialViscosity.initialize i d_au d_av d_aw))
  ∧ (∀ i j d_rho d_cs d_au d_av d_aw s_m s_rho s_cs VIJ XIJ HIJ R2IJ RHOIJ1
       DWIJ DT_ADAPT,
       steps (same_off [(d_au, i); (d_av, i); (d_aw, i)])
         (MonaghanArtificialViscosity.loop i j d_rho d_cs d_au d_av d_aw s_m s_rho
            s_cs VIJ XIJ HIJ R2IJ RHOIJ1 DWIJ DT_ADAPT))
  ∧ (∀ i d_ax d_ay d_az,
       steps (same_off [(d_ax, i); (d_ay, i); (d_az, i)])
         (XSPHCorrection.initialize i d_ax d_ay d_az))
  ∧ (∀ j i s_m d_ax d_ay d_az d_m s_ax s_ay s_az WIJ RHOIJ1 VIJ,
       steps (same_off [(d_ax, i); (d_ay, i); (d_az, i);
                        (s_ax, j); (s_ay, j); (s_az, j)])
         (XSPHCorrection.loop j i s_m d_ax d_ay d_az d_m s_ax s_ay s_az WIJ RHOIJ1 VIJ))
  ∧ (∀ i d_ax d_ay d_az d_u d_v d_w,
       steps (same_off [(d_ax, i); (d_ay, i); (d_az, i)])
         (XSPHCorrection.post_loop i d_ax d_ay d_az d_u d_v d_w)).
Proof.
  repeat split; intros; unfold_stages;
    footprint ltac:(apply write_ok_off; set_solver).
Qed.


(** ** Equations without a reaction term *)

Section one_sided.
Context {O : Type}.

(** A trailing [if self.symmetric: ...] does nothing when the flag is off. *)
Lemma flag_off_state (m : M O unit) (flag : O → bool) (reaction : M O unit) st :
  keeps_self m → flag (self st) = false →
  ((m;; sym ← getattr flag; if sym : bool then reaction else mret tt) st).2
  = (m st).2.
Proof.
  intros Hm Hflag. rewrite bind_state. specialize (Hm st).
  destruct (m st) as [[[]|e] st']; simpl in *; [|done].
  unfold mbind, M_bind, getattr. simpl. by rewrite Hm, Hflag.
Qed.

End one_sided.

(** X3: with [symmetric] off, [ContinuityEquation.loop] and
    [XSPHCorrection.loop] write the destination accumulators at [d_idx] and
    nothing else: every source element, [s_arho[s_idx]] and [s_ax[s_idx]],
    [s_ay[s_idx]], [s_az[s_idx]] included, is as before. *)
Theorem one_sided_without_symmetric :
  (∀ (st : state Equation) i d_arho j s_m d_m s_arho DWIJ VIJ,
     symmetric (self st) = false →
     same_off [(d_arho, i)] st
       (ContinuityEquation.loop i d_arho j s_m d_m s_arho DWIJ VIJ st).2)
  ∧ (∀ (st : state XSPHCorrection.t) j i s_m d_ax d_ay d_az d_m s_ax s_ay s_az
       WIJ RHOIJ1 VIJ,
     symmetric (XSPHCorrection.base (self st)) = false →
     same_off [(d_ax, i); (d_ay, i); (d_az, i)] st
       (XSPHCorrection.loop j i s_m d_ax d_ay d_az d_m s_ax s_ay s_az
          WIJ RHOIJ1 VIJ st).2).
Proof.
  split.
  - intros st i d_arho j s_m d_m s_arho DWIJ VIJ Hoff.
    unfold ContinuityEquation.loop. cbv zeta.
    rewrite flag_off_state; [|by frame|done].
    revert st Hoff. intros st _. revert st.
    change (steps (same_off [(d_arho, i)])
      (iadd_item d_arho i (m ← getitem s_m j; mret (m * dot DWIJ VIJ))
       : M Equation unit)).
    footprint ltac:(apply write_ok_off; set_solver).
  - intros st j i s_m d_ax d_ay d_az d_m s_ax s_ay s_az WIJ RHOIJ1 VIJ Hoff.
    unfold XSPHCorrection.loop. rewrite bind_state. cbn [getattr fst snd].
    rewrite bind_state.
    pose proof (proj1 (reads_only_getitem s_m j st)) as Hst.
    destruct (getitem s_m j st) as [[m|e] st'] eqn:Hget; simpl in Hst; subst st';
      cbn [fst snd]; [|done].
    cbv zeta. rewrite regroup3.
    rewrite flag_off_state; [|by frame|done].
    set (tmp := - XSPHCorrection.eps (self st) * m * WIJ * RHOIJ1).
    assert (Hsteps : steps (same_off [(d_ax, i); (d_ay, i); (d_az, i)])
      (iadd_item d_ax i (mret (tmp * elt0 VIJ));;
       iadd_item d_ay i (mret (tmp * elt1 VIJ));;
       iadd_item d_az i (mret (tmp * elt2 VIJ)) : M XSPHCorrection.t unit)).
    { footprint ltac:(apply write_ok_off; set_solver). }
    apply Hsteps.
Qed.

(** ** What a loop reads of the equation object *)

Section indifference.
Context {O : Type} (R : O → O → Prop).

Lemma indifferent_ret {A} (x : A) : indifferent R (mret x : M O A).
Proof. by intros st1 st2 ???. Qed.

Lemma indifferent_getattr {A} (f : O → A) :
  (∀ o1 o2, R o1 o2 → f o1 = f o2) → indifferent R (getattr f).
Proof. intros Hf st1 st2 HR ??. unfold getattr. simpl. by rewrite (Hf _ _ HR). Qed.

Lemma indifferent_truediv x y : indifferent R (truediv x y : M O float).
Proof.
  intros st1 st2 ?? Hk. unfold truediv. rewrite Hk.
  destruct (is_zero y); [|done]. by destruct (numeric st2) eqn:E; simpl; rewrite ?E.
Qed.

Lemma indifferent_getitem a i : indifferent R (getitem a i : M O float).
Proof. intros st1 st2 ? Hh ?. unfold getitem. rewrite Hh. by repeat case_match. Qed.

Lemma indifferent_setitem a i v : indifferent R (setitem a i v : M O unit).
Proof.
  intros st1 st2 ? Hh Hk. unfold setitem. rewrite Hh.
  repeat case_match; simpl; by rewrite ?Hh, ?Hk.
Qed.

Lemma indifferent_bind {A B} (m : M O A) (k : A → M O B) :
  indifferent R m → (∀ x, indifferent R (k x)) → indifferent R (m ≫= k).
Proof.
  intros Hm Hk st1 st2 HR Hh Hnum.
  destruct (Hm st1 st2 HR Hh Hnum) as (Hout & HR' & Hh' & Hnum').
  unfold mbind, M_bind.
  destruct (m st1) as [o1 st1'], (m st2) as [o2 st2']. simpl in *. subst o2.
  destruct o1 as [x|e]; [by apply Hk | done].
Qed.

Lemma indifferent_iadd_item a i (e : M O float) :
  indifferent R e → indifferent R (iadd_item a i e).
Proof.
  intros He. unfold iadd_item.
  apply indifferent_bind; [apply indifferent_getitem | intros x].
  apply indifferent_bind; [done | intros y]. apply indifferent_setitem.
Qed.

End indifference.

Ltac indifference :=
  repeat first
    [ apply indifferent_ret | apply indifferent_getitem | apply indifferent_setitem
    | apply indifferent_truediv
    | apply indifferent_getattr;
      solve [unfold same_force, same_eos, same_viscosity; tauto]
    | apply indifferent_iadd_item
    | apply indifferent_bind; [|intros ?]
    | match goal with
      | |- indifferent _ (if ?b then _ else _) => destruct b
      end ].

(** X4: the loops of SummationDensity, VelocityGradient2D, BodyForce,
    IsothermalEOS and MonaghanArtificialViscosity never read [dest], [source]
    or [symmetric]; the first two read nothing of the object at all,
    BodyForce reads [fx], [fy], [fz], IsothermalEOS reads the cached [c02]
    and [rho0] (not [c0]), MonaghanArtificialViscosity reads [alpha], [beta]
    and [eta].  So these accumulations are the same with [symmetric] on or
    off. *)
Theorem loops_ignore_flag :
  (∀ i d_rho j s_m WIJ,
     indifferent (λ _ _, True) (SummationDensity.loop i d_rho j s_m WIJ))
  ∧ (∀ i j s_m s_rho d_v00 d_v01 d_v10 d_v11 DWIJ VIJ,
       indifferent (λ _ _, True)
         (VelocityGradient2D.loop i j s_m s_rho d_v00 d_v01 d_v10 d_v11 DWIJ VIJ))
  ∧ (∀ i d_au d_av d_aw, indifferent same_force (BodyForce.loop i d_au d_av d_aw))
  ∧ (∀ i d_rho d_p, indifferent same_eos (IsothermalEOS.loop i d_rho d_p))
  ∧ (∀ i j d_rho d_cs d_au d_av d_aw s_m s_rho s_cs VIJ XIJ HIJ R2IJ RHOIJ1
       DWIJ DT_ADAPT,
       indifferent same_viscosity
         (MonaghanArtificialViscosity.loop i j d_rho d_cs d_au d_av d_aw s_m
            s_rho s_cs VIJ XIJ HIJ R2IJ RHOIJ1 DWIJ DT_ADAPT)).
Proof.
  split; [|split; [|split; [|split]]]; intros; unfold_stages; indifference.
Qed.


(** ** MonaghanArtificialViscosity: approaching pairs *)

Lemma leb_0_not_negative x : (0 <=? x) = true → not_negative (Prim2SF x).
Proof. rewrite leb_0_sf. by destruct (Prim2SF x) as [|[]| |[]]. Qed.

Lemma ltb_0_not_positive x : (x <? 0) = true → not_positive (Prim2SF x).
Proof. rewrite ltb_0_sf. by destruct (Prim2SF x) as [|[]| |[]]. Qed.

Lemma lt_0_positive x : (0 <? x) = true → positive_sf (Prim2SF x).
Proof. rewrite lt_0_sf. by destruct (Prim2SF x) as [|[]| |[]]. Qed.

Lemma lt_0_not_zero x : (0 <? x) = true → is_zero x = false.
Proof. rewrite lt_0_sf, is_zero_sf. by destruct (Prim2SF x) as [|[]| |[]]. Qed.

Lemma mul_nn_nn x y :
  not_negative (Prim2SF x) → not_negative (Prim2SF y) → not_negative (Prim2SF (x * y)).
Proof. rewrite mul_spec. apply SFmul_sign. Qed.

Lemma mul_nn_np x y :
  not_negative (Prim2SF x) → not_positive (Prim2SF y) → not_positive (Prim2SF (x * y)).
Proof. rewrite mul_spec. apply SFmul_sign. Qed.

Lemma mul_np_nn x y :
  not_positive (Prim2SF x) → not_negative (Prim2SF y) → not_positive (Prim2SF (x * y)).
Proof. rewrite mul_spec. apply SFmul_sign. Qed.

Lemma mul_np_np x y :
  not_positive (Prim2SF x) → not_positive (Prim2SF y) → not_negative (Prim2SF (x * y)).
Proof. rewrite mul_spec. apply SFmul_sign. Qed.

Lemma monaghan_piij_approaching (st : state MonaghanArtificialViscosity.t)
    (v : float) (i j : nat) (d_cs s_cs : ref) (HIJ R2IJ RHOIJ1 ci cj : float) :
  (v <? 0) = true →
  item (heap st) d_cs i = Some ci → item (heap st) s_cs j = Some cj →
  let eta := MonaghanArtificialViscosity.eta (self st) in
  numeric st = Float64 ∨ is_zero (R2IJ + eta * eta * HIJ * HIJ) = false →
  MonaghanArtificialViscosity.piij_of v i j d_cs s_cs HIJ R2IJ RHOIJ1 st
  = (Ok (monaghan_pi (MonaghanArtificialViscosity.alpha (self st))
           (MonaghanArtificialViscosity.beta (self st)) eta ci cj v HIJ R2IJ RHOIJ1),
     st).
Proof.
  intros Hv Hci Hcj eta Hden. unfold MonaghanArtificialViscosity.piij_of.
  rewrite Hv.
  rewrite (getitem_bind _ _ ci), (getitem_bind _ _ cj) by done. cbv zeta.
  rewrite !getattr_bind. by rewrite truediv_bind.
Qed.

Lemma monaghan_pi_not_negative (alpha beta eta ci cj v HIJ R2IJ RHOIJ1 : float) :
  (v <? 0) = true → (0 <=? alpha) = true → (0 <=? beta) = true →
  (0 <=? ci + cj) = true → (0 <=? HIJ) = true → (0 <=? RHOIJ1) = true →
  (0 <? R2IJ + eta * eta * HIJ * HIJ) = true →
  (monaghan_pi alpha beta eta ci cj v HIJ R2IJ RHOIJ1 <? 0) = false.
Proof.
  intros Hv Ha Hb Hc Hh Hr Hd. apply not_negative_ltb.
  unfold monaghan_pi. cbv zeta.
  set (d := R2IJ + eta * eta * HIJ * HIJ) in *.
  set (mu := HIJ * v / d).
  apply leb_0_not_negative in Ha, Hb, Hc, Hh, Hr.
  apply ltb_0_not_positive in Hv. apply lt_0_positive in Hd.
  assert (Hmu : not_positive (Prim2SF mu)).
  { unfold mu. rewrite div_spec. apply SFdiv_sign; [done|]. by apply mul_nn_np. }
  assert (Hcij : not_negative (Prim2SF (half * (ci + cj)))).
  { by apply mul_nn_nn. }
  apply mul_nn_nn; [|done]. rewrite add_spec. apply SFadd_not_negative.
  - apply mul_np_np; [|done]. apply mul_np_nn; [|done].
    rewrite opp_spec. by apply SFopp_sign.
  - apply mul_np_np; [|done]. by apply mul_nn_np.
Qed.

(** X5: with non-negative [alpha], [beta], sound speeds, [HIJ] and [RHOIJ1]
    and a positive denominator [R2IJ + eta^2 HIJ^2], the viscosity term
    [piij] that [loop] computes is never negative, for approaching and for
    separating pairs. *)
Theorem monaghan_piij_nonneg (st : state MonaghanArtificialViscosity.t)
    (v : float) (i j : nat) (d_cs s_cs : ref) (HIJ R2IJ RHOIJ1 ci cj : float) :
  item (heap st) d_cs i = Some ci → item (heap st) s_cs j = Some cj →
  (0 <=? MonaghanArtificialViscosity.alpha (self st)) = true →
  (0 <=? MonaghanArtificialViscosity.beta (self st)) = true →
  (0 <=? ci + cj) = true → (0 <=? HIJ) = true → (0 <=? RHOIJ1) = true →
  (0 <? R2IJ + MonaghanArtificialViscosity.eta (self st)
              * MonaghanArtificialViscosity.eta (self st) * HIJ * HIJ) = true →
  ∃ p, MonaghanArtificialViscosity.piij_of v i j d_cs s_cs HIJ R2IJ RHOIJ1 st
       = (Ok p, st) ∧ (p <? 0) = false.
Proof.
  intros Hci Hcj Ha Hb Hc Hh Hr Hd.
  destruct (v <? 0) eqn:Hv.
  - eexists. split.
    + apply monaghan_piij_approaching; [done..|]. right. by apply lt_0_not_zero.
    + by apply monaghan_pi_not_negative.
  - exists 0. split; [|done]. by apply monaghan_piij_separating.
Qed.

(** [MonaghanArtificialViscosity.loop] on an approaching pair, run. *)
Lemma monaghan_approaching_run (o : MonaghanArtificialViscosity.t) (h : store)
    (k : operands) (d_idx s_idx : nat)
    (d_rho d_cs d_au d_av d_aw s_m s_rho s_cs : ref)
    (VIJ XIJ : vec3) (HIJ R2IJ RHOIJ1 : float) (DWIJ DT_ADAPT : vec3)
    (ri rj ci cj m au av aw : float) :
  (dot VIJ XIJ <? 0) = true →
  d_au ≠ d_av → d_au ≠ d_aw → d_av ≠ d_aw → s_m ≠ d_au → s_m ≠ d_av →
  item h d_rho d_idx = Some ri → item h s_rho s_idx = Some rj →
  item h d_cs d_idx = Some ci → item h s_cs s_idx = Some cj →
  item h s_m s_idx = Some m →
  item h d_au d_idx = Some au → item h d_av d_idx = Some av →
  item h d_aw d_idx = Some aw →
  k = Float64
  ∨ (is_zero (ri * ri) = false ∧ is_zero (rj * rj) = false
     ∧ is_zero (R2IJ + MonaghanArtificialViscosity.eta o
                       * MonaghanArtificialViscosity.eta o * HIJ * HIJ) = false) →
  let piij := monaghan_pi (MonaghanArtificialViscosity.alpha o)
                (MonaghanArtificialViscosity.beta o)
                (MonaghanArtificialViscosity.eta o) ci cj (dot VIJ XIJ)
                HIJ R2IJ RHOIJ1 in
  ∃ h', MonaghanArtificialViscosity.loop d_idx s_idx d_rho d_cs d_au d_av d_aw
          s_m s_rho s_cs VIJ XIJ HIJ R2IJ RHOIJ1 DWIJ DT_ADAPT (State o h k)
        = (Ok tt, State o h' k)
    ∧ item h' d_au d_idx = Some (au + - m * piij * elt0 DWIJ)
    ∧ item h' d_av d_idx = Some (av + - m * piij * elt1 DWIJ)
    ∧ item h' d_aw d_idx = Some (aw + - m * piij * elt2 DWIJ).
Proof.
  intros Hv Huv Huw Hvw Hmu Hmv Hri Hrj Hci Hcj Hm Hau Hav Haw Hok piij.
  eexists. split.
  - unfold MonaghanArtificialViscosity.loop.
    rewrite !(getitem_bind _ _ ri) by done.
    rewrite truediv_bind by (destruct Hok as [?|(?&?&?)]; auto).
    rewrite !(getitem_bind _ _ rj) by done.
    rewrite truediv_bind by (destruct Hok as [?|(?&?&?)]; auto).
    cbv zeta. erewrite bind_ok; last first.
    { apply monaghan_piij_approaching; [done..|]. cbn [self numeric].
      destruct Hok as [?|(?&?&?)]; auto. }
    cbn [self]. fold piij.
    erewrite iadd_item_bind; [|done|by rewrite (getitem_bind _ _ m)].
    erewrite iadd_item_bind; [|by cbn; rewrite item_update_ne; eauto|].
    2:{ rewrite (getitem_bind _ _ m); [done|]. cbn. rewrite item_update_ne; eauto. }
    erewrite iadd_item_item; [reflexivity| |].
    + cbn. rewrite !item_update_ne; eauto.
    + rewrite (getitem_bind _ _ m); [done|]. cbn. rewrite !item_update_ne; eauto.
  - cbn. repeat split.
    + rewrite !item_update_ne by eauto. apply item_update_eq. by rewrite Hau.
    + rewrite item_update_ne by eauto. apply item_update_eq.
      rewrite item_update_ne by eauto. by rewrite Hav.
    + apply item_update_eq. rewrite !item_update_ne by eauto. by rewrite Haw.
Qed.

(** X6: for an approaching pair ([VIJ·XIJ < 0]), [loop] completes and adds
    [- s_m[j] * piij * DWIJ[k]] to [d_au[i]], [d_av[i]], [d_aw[i]], where
    [piij = (-alpha*cij*muij + beta*muij*muij) * RHOIJ1],
    [cij = 0.5*(d_cs[i] + s_cs[j])] and
    [muij = HIJ*(VIJ·XIJ) / (R2IJ + eta*eta*HIJ*HIJ)], each operation
    rounded as the code has it; this on [float64], and on Python floats when
    the squares of the two densities and the denominator are not zero. *)
Theorem monaghan_approaching_pair (o : MonaghanArtificialViscosity.t) (h : store)
    (k : operands) (d_idx s_idx : nat)
    (d_rho d_cs d_au d_av d_aw s_m s_rho s_cs : ref)
    (VIJ XIJ : vec3) (HIJ R2IJ RHOIJ1 : float) (DWIJ DT_ADAPT : vec3)
    (ri rj ci cj m au av aw : float) :
  (dot VIJ XIJ <? 0) = true →
  d_au ≠ d_av → d_au ≠ d_aw → d_av ≠ d_aw → s_m ≠ d_au → s_m ≠ d_av →
  item h d_rho d_idx = Some ri → item h s_rho s_idx = Some rj →
  item h d_cs d_idx = Some ci → item h s_cs s_idx = Some cj →
  item h s_m s_idx = Some m →
  item h d_au d_idx = Some au → item h d_av d_idx = Some av →
  item h d_aw d_idx = Some aw →
  k = Float64
  ∨ (is_zero (ri * ri) = false ∧ is_zero (rj * rj) = false
     ∧ is_zero (R2IJ + MonaghanArtificialViscosity.eta o
                       * MonaghanArtificialViscosity.eta o * HIJ * HIJ) = false) →
  let piij := monaghan_pi (MonaghanArtificialViscosity.alpha o)
                (MonaghanArtificialViscosity.beta o)
                (MonaghanArtificialViscosity.eta o) ci cj (dot VIJ XIJ)
                HIJ R2IJ RHOIJ1 in
  ∃ h', MonaghanArtificialViscosity.loop d_idx s_idx d_rho d_cs d_au d_av d_aw
          s_m s_rho s_cs VIJ XIJ HIJ R2IJ RHOIJ1 DWIJ DT_ADAPT (State o h k)
        = (Ok tt, State o h' k)
    ∧ item h' d_au d_idx = Some (au + - m * piij * elt0 DWIJ)
    ∧ item h' d_av d_idx = Some (av + - m * piij * elt1 DWIJ)
    ∧ item h' d_aw d_idx = Some (aw + - m * piij * elt2 DWIJ).
Proof. apply monaghan_approaching_run. Qed.




(** ** XSPHCorrection: the pass and the reaction *)

Lemma xsph_loop_one_sided (o : XSPHCorrection.t) (h : store) (k : operands)
    (j i : nat) (s_m d_ax d_ay d_az d_m s_ax s_ay s_az : ref)
    (WIJ RHOIJ1 : float) (VIJ : vec3) (m a b c : float) :
  symmetric (XSPHCorrection.base o) = false →
  d_ax ≠ d_ay → d_ax ≠ d_az → d_ay ≠ d_az →
  item h s_m j = Some m →
  item h d_ax i = Some a → item h d_ay i = Some b → item h d_az i = Some c →
  XSPHCorrection.loop j i s_m d_ax d_ay d_az d_m s_ax s_ay s_az WIJ RHOIJ1 VIJ
    (State o h k)
  = (Ok tt, State o
      (update (update (update h
         d_ax i (a + - XSPHCorrection.eps o * m * WIJ * RHOIJ1 * elt0 VIJ))
         d_ay i (b + - XSPHCorrection.eps o * m * WIJ * RHOIJ1 * elt1 VIJ))
         d_az i (c + - XSPHCorrection.eps o * m * WIJ * RHOIJ1 * elt2 VIJ)) k).
Proof.
  intros Hoff Hxy Hxz Hyz Hm Ha Hb Hc. unfold XSPHCorrection.loop.
  rewrite getattr_bind, (getitem_bind _ _ m) by done. cbv zeta.
  erewrite iadd_item_bind; [|done|reflexivity].
  erewrite iadd_item_bind; [|by cbn; rewrite item_update_ne; eauto|reflexivity].
  erewrite iadd_item_bind; [|by cbn; rewrite !item_update_ne; eauto|reflexivity].
  rewrite getattr_bind. cbn [self heap]. by rewrite Hoff.
Qed.

Lemma xsph_loops_one_sided (o : XSPHCorrection.t) (h : store) (k : operands)
    (i : nat) (s_m d_ax d_ay d_az d_m s_ax s_ay s_az : ref)
    (nbrs : list xsph_nbr) :
  symmetric (XSPHCorrection.base o) = false →
  d_ax ≠ d_ay → d_ax ≠ d_az → d_ay ≠ d_az →
  s_m ∉ [d_ax; d_ay; d_az] →
  Forall (λ n, is_Some (item h s_m (nbr_idx n))) nbrs →
  ∀ (h1 : store) (a b c : float),
  (∀ r l, r ∉ [d_ax; d_ay; d_az] → item h1 r l = item h r l) →
  item h1 d_ax i = Some a → item h1 d_ay i = Some b → item h1 d_az i = Some c →
  ∃ h2, foreach nbrs (λ n, XSPHCorrection.loop (nbr_idx n) i s_m d_ax d_ay d_az
                             d_m s_ax s_ay s_az (nbr_WIJ n) (nbr_RHOIJ1 n) (nbr_VIJ n))
          (State o h1 k)
        = (Ok tt, State o h2 k)
    ∧ (∀ r l, r ∉ [d_ax; d_ay; d_az] → item h2 r l = item h r l)
    ∧ item h2 d_ax i
      = Some (accumulate (xsph_terms (XSPHCorrection.eps o) h s_m elt0 nbrs) a)
    ∧ item h2 d_ay i
      = Some (accumulate (xsph_terms (XSPHCorrection.eps o) h s_m elt1 nbrs) b)
    ∧ item h2 d_az i
      = Some (accumulate (xsph_terms (XSPHCorrection.eps o) h s_m elt2 nbrs) c).
Proof.
  intros Hoff Hxy Hxz Hyz Hsm Hall.
  induction Hall as [|n nbrs [m Hm] _ IH]; intros h1 a b c Hframe Ha Hb Hc.
  - exists h1. cbn [foreach]. by repeat split.
  - assert (Hm1 : item h1 s_m (nbr_idx n) = Some m) by by rewrite Hframe.
    pose proof (xsph_loop_one_sided o h1 k (nbr_idx n) i s_m d_ax d_ay d_az d_m
      s_ax s_ay s_az (nbr_WIJ n) (nbr_RHOIJ1 n) (nbr_VIJ n) m a b c
      Hoff Hxy Hxz Hyz Hm1 Ha Hb Hc) as Hstep.
    set (tmp := - XSPHCorrection.eps o * m * nbr_WIJ n * nbr_RHOIJ1 n) in *.
    set (h1' := update (update (update h1 d_ax i (a + tmp * elt0 (nbr_VIJ n)))
                          d_ay i (b + tmp * elt1 (nbr_VIJ n)))
                          d_az i (c + tmp * elt2 (nbr_VIJ n))) in *.
    destruct (IH h1' (a + tmp * elt0 (nbr_VIJ n)) (b + tmp * elt1 (nbr_VIJ n))
                (c + tmp * elt2 (nbr_VIJ n)))
      as (h2 & Hrun & Hframe2 & Ha2 & Hb2 & Hc2);
      [| | | |exists h2; split; [|split; [exact Hframe2|]]]; unfold h1'.
    + intros r l Hr. rewrite !item_update_ne by (left; set_solver). by apply Hframe.
    + rewrite !item_update_ne by eauto. apply item_update_eq. by rewrite Ha.
    + rewrite item_update_ne by eauto. apply item_update_eq.
      rewrite item_update_ne by eauto. by rewrite Hb.
    + apply item_update_eq. rewrite !item_update_ne by eauto. by rewrite Hc.
    + cbn [foreach]. by erewrite bind_ok by exact Hstep.
    + rewrite Ha2, Hb2, Hc2. unfold xsph_terms, accumulate.
      rewrite !fmap_cons. cbn [fold_left]. by rewrite Hm.
Qed.

(** X8: a full pass of XSPHCorrection with [symmetric] off: after
    [initialize], one [loop] per neighbour and [post_loop], [d_ax[i]] is the
    running sum from [0.0] of the terms
    [- eps * s_m[j] * WIJ * RHOIJ1 * VIJ[0]], in the order of the
    neighbours and each addition rounded, plus [d_u[i]]; likewise [d_ay[i]]
    with [d_v[i]], [VIJ[1]] and [d_az[i]] with [d_w[i]], [VIJ[2]]. *)
Theorem xsph_pass_one_sided (o : XSPHCorrection.t) (h : store) (k : operands)
    (i : nat) (s_m d_ax d_ay d_az d_m s_ax s_ay s_az d_u d_v d_w : ref)
    (nbrs : list xsph_nbr) (u v w : float) :
  symmetric (XSPHCorrection.base o) = false →
  d_ax ≠ d_ay → d_ax ≠ d_az → d_ay ≠ d_az →
  Forall (λ r, r ∉ [d_ax; d_ay; d_az]) [s_m; d_u; d_v; d_w] →
  is_Some (item h d_ax i) → is_Some (item h d_ay i) → is_Some (item h d_az i) →
  item h d_u i = Some u → item h d_v i = Some v → item h d_w i = Some w →
  Forall (λ n, is_Some (item h s_m (nbr_idx n))) nbrs →
  ∃ h', xsph_pass i s_m d_ax d_ay d_az d_m s_ax s_ay s_az d_u d_v d_w nbrs
          (State o h k)
        = (Ok tt, State o h' k)
    ∧ item h' d_ax i
      = Some (accumulate (xsph_terms (XSPHCorrection.eps o) h s_m elt0 nbrs) 0 + u)
    ∧ item h' d_ay i
      = Some (accumulate (xsph_terms (XSPHCorrection.eps o) h s_m elt1 nbrs) 0 + v)
    ∧ item h' d_az i
      = Some (accumulate (xsph_terms (XSPHCorrection.eps o) h s_m elt2 nbrs) 0 + w).
Proof.
  intros Hoff Hxy Hxz Hyz Hrefs Hax Hay Haz Hu Hv Hw Hall.
  apply Forall_cons in Hrefs as [Hsm Hrefs].
  apply Forall_cons in Hrefs as [Hdu Hrefs].
  apply Forall_cons in Hrefs as [Hdv Hrefs].
  apply Forall_cons in Hrefs as [Hdw _].
  set (h0 := update (update (update h d_ax i 0) d_ay i 0) d_az i 0).
  assert (Hinit : XSPHCorrection.initialize i d_ax d_ay d_az (State o h k)
                  = (Ok tt, State o h0 k)).
  { unfold XSPHCorrection.initialize.
    rewrite setitem_bind by done.
    rewrite setitem_bind by (cbn; rewrite item_update_ne; eauto).
    rewrite setitem_item; [done|]. cbn. rewrite !item_update_ne; eauto. }
  destruct (xsph_loops_one_sided o h k i s_m d_ax d_ay d_az d_m s_ax s_ay s_az nbrs
              Hoff Hxy Hxz Hyz Hsm Hall h0 0 0 0)
    as (h1 & Hrun & Hframe & Ha & Hb & Hc).
  { intros r l Hr. unfold h0. rewrite !item_update_ne by (left; set_solver). done. }
  { unfold h0. rewrite !item_update_ne by eauto. by apply item_update_eq. }
  { unfold h0. rewrite item_update_ne by eauto. apply item_update_eq.
    rewrite item_update_ne; eauto. }
  { apply item_update_eq. rewrite !item_update_ne; eauto. }
  eexists. split.
  - unfold xsph_pass. erewrite bind_ok by exact Hinit.
    erewrite bind_ok by exact Hrun. unfold XSPHCorrection.post_loop.
    erewrite iadd_item_bind; [|done|apply getitem_item; cbn; by rewrite Hframe].
    erewrite iadd_item_bind;
      [|by cbn; rewrite item_update_ne; eauto
       |apply getitem_item; cbn; rewrite item_update_ne by (left; set_solver);
        by rewrite Hframe].
    erewrite iadd_item_item;
      [reflexivity
      |by cbn; rewrite !item_update_ne; eauto
      |apply getitem_item; cbn; rewrite !item_update_ne by (left; set_solver);
       by rewrite Hframe].
  - cbn. repeat split.
    + rewrite !item_update_ne by eauto. by rewrite item_update_eq by by rewrite Ha.
    + rewrite item_update_ne by eauto.
      by rewrite item_update_eq by (rewrite item_update_ne by eauto; by rewrite Hb).
    + by rewrite item_update_eq by (rewrite !item_update_ne by eauto; by rewrite Hc).
Qed.

Ltac apart H :=
  first
    [ left; congruence | right; congruence
    | destruct H; [left; congruence | right; congruence] ].

(** [XSPHCorrection.loop] with [symmetric] on, run on a pair of different
    particles: the arrays are named by the binding convention, [d_x] is the
    array [x] of [dst] and [s_x] the array [x] of [src]. *)
Lemma xsph_symmetric_run (o : XSPHCorrection.t) (h : store) (k : operands)
    (dst src : string) (i j : nat) (WIJ RHOIJ1 : float) (VIJ : vec3)
    (md ms ax ay az sx sy sz : float) :
  symmetric (XSPHCorrection.base o) = true → dst ≠ src ∨ i ≠ j →
  k = Float64 ∨ is_zero ms = false →
  item h (dst, "m") i = Some md → item h (src, "m") j = Some ms →
  item h (dst, "ax") i = Some ax → item h (dst, "ay") i = Some ay →
  item h (dst, "az") i = Some az →
  item h (src, "ax") j = Some sx → item h (src, "ay") j = Some sy →
  item h (src, "az") j = Some sz →
  let tmp := - XSPHCorrection.eps o * ms * WIJ * RHOIJ1 in
  let factor := - md / ms in
  ∃ h', XSPHCorrection.loop j i (src, "m") (dst, "ax") (dst, "ay") (dst, "az")
          (dst, "m") (src, "ax") (src, "ay") (src, "az") WIJ RHOIJ1 VIJ
          (State o h k)
        = (Ok tt, State o h' k)
    ∧ item h' (dst, "ax") i = Some (ax + tmp * elt0 VIJ)
    ∧ item h' (dst, "ay") i = Some (ay + tmp * elt1 VIJ)
    ∧ item h' (dst, "az") i = Some (az + tmp * elt2 VIJ)
    ∧ item h' (src, "ax") j = Some (sx + tmp * elt0 VIJ * factor)
    ∧ item h' (src, "ay") j = Some (sy + tmp * elt1 VIJ * factor)
    ∧ item h' (src, "az") j = Some (sz + tmp * elt2 VIJ * factor).
Proof.
  intros Hon Hpair Hms Hmd Hmsj Hax Hay Haz Hsx Hsy Hsz tmp factor.
  assert (Hpair' : src ≠ dst ∨ j ≠ i) by (destruct Hpair; [left|right]; congruence).
  eexists. split.
  - unfold XSPHCorrection.loop.
    rewrite getattr_bind, (getitem_bind _ _ ms) by done. cbv zeta.
    erewrite iadd_item_bind; [|done|reflexivity].
    erewrite iadd_item_bind;
      [|by cbn; rewrite item_update_ne by apart Hpair|reflexivity].
    erewrite iadd_item_bind;
      [|by cbn; rewrite !item_update_ne by apart Hpair|reflexivity].
    rewrite getattr_bind. cbn [self heap]. rewrite Hon.
    rewrite (getitem_bind _ _ md)
      by (cbn; by rewrite !item_update_ne by apart Hpair).
    rewrite (getitem_bind _ _ ms)
      by (cbn; by rewrite !item_update_ne by apart Hpair).
    rewrite truediv_bind by done.
    erewrite iadd_item_bind;
      [|by cbn; rewrite !item_update_ne by apart Hpair|reflexivity].
    erewrite iadd_item_bind;
      [|by cbn; rewrite !item_update_ne by apart Hpair|reflexivity].
    erewrite iadd_item_item;
      [reflexivity|by cbn; rewrite !item_update_ne by apart Hpair|reflexivity].
  - cbn [self heap]. fold tmp factor. repeat split.
    + rewrite !item_update_ne by apart Hpair'. apply item_update_eq. by rewrite Hax.
    + rewrite !item_update_ne by apart Hpair'. apply item_update_eq.
      rewrite !item_update_ne by apart Hpair. by rewrite Hay.
    + rewrite !item_update_ne by apart Hpair'. apply item_update_eq.
      rewrite !item_update_ne by apart Hpair. by rewrite Haz.
    + rewrite !item_update_ne by apart Hpair'. apply item_update_eq.
      rewrite !item_update_ne by apart Hpair. by rewrite Hsx.
    + rewrite !item_update_ne by apart Hpair'. apply item_update_eq.
      rewrite !item_update_ne by apart Hpair. by rewrite Hsy.
    + apply item_update_eq. rewrite !item_update_ne by apart Hpair. by rewrite Hsz.
Qed.

(** X9: with [symmetric] on and a pair of different particles,
    [XSPHCorrection.loop] adds [v_k = - eps * s_m[j] * WIJ * RHOIJ1 * VIJ[k]]
    to the destination accumulators and the reaction
    [v_k * (- d_m[i] / s_m[j])] to the source accumulators, each operation
    rounded as the code has it; this on [float64], and on Python floats when
    [s_m[j]] is not zero.  [dst] and [src] may be the same particle
    array. *)
Theorem xsph_reaction (o : XSPHCorrection.t) (h : store) (k : operands)
    (dst src : string) (i j : nat) (WIJ RHOIJ1 : float) (VIJ : vec3)
    (md ms ax ay az sx sy sz : float) :
  symmetric (XSPHCorrection.base o) = true → dst ≠ src ∨ i ≠ j →
  k = Float64 ∨ is_zero ms = false →
  item h (dst, "m") i = Some md → item h (src, "m") j = Some ms →
  item h (dst, "ax") i = Some ax → item h (dst, "ay") i = Some ay →
  item h (dst, "az") i = Some az →
  item h (src, "ax") j = Some sx → item h (src, "ay") j = Some sy →
  item h (src, "az") j = Some sz →
  let tmp := - XSPHCorrection.eps o * ms * WIJ * RHOIJ1 in
  let factor := - md / ms in
  ∃ h', XSPHCorrection.loop j i (src, "m") (dst, "ax") (dst, "ay") (dst, "az")
          (dst, "m") (src, "ax") (src, "ay") (src, "az") WIJ RHOIJ1 VIJ
          (State o h k)
        = (Ok tt, State o h' k)
    ∧ item h' (dst, "ax") i = Some (ax + tmp * elt0 VIJ)
    ∧ item h' (dst, "ay") i = Some (ay + tmp * elt1 VIJ)
    ∧ item h' (dst, "az") i = Some (az + tmp * elt2 VIJ)
    ∧ item h' (src, "ax") j = Some (sx + tmp * elt0 VIJ * factor)
    ∧ item h' (src, "ay") j = Some (sy + tmp * elt1 VIJ * factor)
    ∧ item h' (src, "az") j = Some (sz + tmp * elt2 VIJ * factor).
Proof. apply xsph_symmetric_run. Qed.

Section zero_terms.
Context {O : Type}.

Lemma same_values_trans (st1 st2 st3 : state O) :
  same_values st1 st2 → same_values st2 st3 → same_values st1 st3.
Proof.
  intros (Hs & Hn & Hv) (Hs' & Hn' & Hv'). split; [congruence|].
  split; [congruence|]. intros a i. specialize (Hv a i). specialize (Hv' a i).
  destruct Hv as [x y Hxy|]; inversion Hv' as [y' z Hyz|]; subst; constructor.
  by eapply same_number_trans.
Qed.

Lemma same_values_item (st st' : state O) a i x :
  same_values st st' → item (heap st) a i = Some x →
  ∃ y, item (heap st') a i = Some y ∧ same_number x y.
Proof.
  intros (_ & _ & Hv) Hx. specialize (Hv a i). rewrite Hx in Hv.
  inversion Hv as [x' y Hxy|]; subst. by exists y.
Qed.

Lemma same_number_zero x y : same_number x y → is_zero x = true → is_zero y = true.
Proof. by intros [<-|[_ ?]]. Qed.

(** [a[i] += z] with [z] a zero completes and keeps the numbers of the
    store. *)
Lemma iadd_zero_same (st : state O) a i z :
  is_Some (item (heap st) a i) → is_zero z = true →
  ∃ st', iadd_item a i (mret z) st = (Ok tt, st') ∧ same_values st st'.
Proof.
  intros [x Hx] Hz. eexists. split.
  - by erewrite iadd_item_item.
  - apply same_values_update; [apply same_values_refl|done..].
Qed.

End zero_terms.

(** X10: [XSPHCorrection.loop] with [symmetric] on and a source of zero mass
    [s_m[j]].  On Python floats the call raises [ZeroDivisionError] at
    [factor = -d_m[i]/s_m[j]]; the three destination updates before it added
    a zero ([eps], [WIJ], [RHOIJ1] and [VIJ] being finite), so the object and
    every number of the store are as before.  On [float64] [factor] is not
    finite, the call completes and leaves the three source accumulators not
    finite. *)
Theorem xsph_zero_source_mass :
  (∀ (st : state XSPHCorrection.t) j i s_m d_ax d_ay d_az d_m s_ax s_ay s_az
     WIJ RHOIJ1 VIJ ms,
     numeric st = PyFloat →
     symmetric (XSPHCorrection.base (self st)) = true →
     item (heap st) s_m j = Some ms → is_zero ms = true →
     is_Some (item (heap st) d_m i) →
     is_Some (item (heap st) d_ax i) → is_Some (item (heap st) d_ay i) →
     is_Some (item (heap st) d_az i) →
     is_finite (XSPHCorrection.eps (self st)) = true →
     is_finite WIJ = true → is_finite RHOIJ1 = true →
     is_finite (elt0 VIJ) = true → is_finite (elt1 VIJ) = true →
     is_finite (elt2 VIJ) = true →
     let run := XSPHCorrection.loop j i s_m d_ax d_ay d_az d_m s_ax s_ay s_az
                  WIJ RHOIJ1 VIJ st in
     run.1 = Raise ZeroDivisionError ∧ same_values st run.2)
  ∧ (∀ (o : XSPHCorrection.t) h dst src i j WIJ RHOIJ1 VIJ md ms
       ax ay az sx sy sz,
     symmetric (XSPHCorrection.base o) = true → dst ≠ src ∨ i ≠ j →
     item h (dst, "m") i = Some md → item h (src, "m") j = Some ms →
     is_zero ms = true →
     item h (dst, "ax") i = Some ax → item h (dst, "ay") i = Some ay →
     item h (dst, "az") i = Some az →
     item h (src, "ax") j = Some sx → item h (src, "ay") j = Some sy →
     item h (src, "az") j = Some sz →
     nonfinite (- md / ms) = true
     ∧ ∃ h' x y z,
         XSPHCorrection.loop j i (src, "m") (dst, "ax") (dst, "ay") (dst, "az")
           (dst, "m") (src, "ax") (src, "ay") (src, "az") WIJ RHOIJ1 VIJ
           (State o h Float64)
         = (Ok tt, State o h' Float64)
         ∧ item h' (src, "ax") j = Some x ∧ nonfinite x = true
         ∧ item h' (src, "ay") j = Some y ∧ nonfinite y = true
         ∧ item h' (src, "az") j = Some z ∧ nonfinite z = true).
Proof.
  split.
  - intros st j i s_m d_ax d_ay d_az d_m s_ax s_ay s_az WIJ RHOIJ1 VIJ ms
      Hk Hon Hm Hz [md Hmd] Hax Hay Haz He Hw Hr Hv0 Hv1 Hv2 run.
    assert (Htmp : is_zero (- XSPHCorrection.eps (self st) * ms * WIJ * RHOIJ1)
                   = true).
    { apply mul_zero_l; [|done]. apply mul_zero_l; [|done].
      apply mul_zero_r; [|done]. by rewrite is_finite_opp. }
    destruct (iadd_zero_same st d_ax i
                (- XSPHCorrection.eps (self st) * ms * WIJ * RHOIJ1 * elt0 VIJ))
      as (st1 & H1 & S1); [done|by apply mul_zero_l|].
    destruct (iadd_zero_same st1 d_ay i
                (- XSPHCorrection.eps (self st) * ms * WIJ * RHOIJ1 * elt1 VIJ))
      as (st2 & H2 & S2).
    { destruct Hay as [y Hy].
      destruct (same_values_item _ _ _ _ _ S1 Hy) as (y' & -> & _). by eexists. }
    { by apply mul_zero_l. }
    destruct (iadd_zero_same st2 d_az i
                (- XSPHCorrection.eps (self st) * ms * WIJ * RHOIJ1 * elt2 VIJ))
      as (st3 & H3 & S3).
    { destruct Haz as [z Hz'].
      destruct (same_values_item _ _ _ _ _ (same_values_trans _ _ _ S1 S2) Hz')
        as (z' & -> & _). by eexists. }
    { by apply mul_zero_l. }
    pose proof (same_values_trans _ _ _ (same_values_trans _ _ _ S1 S2) S3) as S.
    destruct (same_values_item _ _ _ _ _ S Hmd) as (md' & Hmd' & _).
    destruct (same_values_item _ _ _ _ _ S Hm) as (ms' & Hms' & Hsame).
    destruct S as (Hself & Hnum & Hvals).
    assert (Hrun : run = (Raise ZeroDivisionError, st3)).
    { unfold run, XSPHCorrection.loop.
      rewrite getattr_bind, (getitem_bind _ _ ms) by done. cbv zeta.
      erewrite bind_ok by exact H1. erewrite bind_ok by exact H2.
      erewrite bind_ok by exact H3.
      rewrite getattr_bind, Hself, Hon.
      rewrite (getitem_bind _ _ md'), (getitem_bind _ _ ms') by done.
      apply truediv_raise_bind; [congruence|]. by eapply same_number_zero. }
    rewrite Hrun. by split.
  - intros o h dst src i j WIJ RHOIJ1 VIJ md ms ax ay az sx sy sz Hon Hpair
      Hmd Hms Hz Hax Hay Haz Hsx Hsy Hsz.
    assert (Hq : nonfinite (- md / ms) = true) by by apply div_zero_nonfinite.
    split; [done|].
    destruct (xsph_symmetric_run o h Float64 dst src i j WIJ RHOIJ1 VIJ md ms
                ax ay az sx sy sz)
      as (h' & Hrun & _ & _ & _ & Hx & Hy & Hz'); auto.
    exists h'. do 3 eexists. split; [exact Hrun|].
    repeat split; try eassumption; by apply nonfinite_add_r, nonfinite_mul_r.
Qed.

(** ** ContinuityEquation: the reaction *)

(** X11: with [symmetric] on, for any masses and any starting rates, [loop]
    adds [s_m[j] * (VIJ·DWIJ)] to [d_arho[i]] and [- d_m[i] * (VIJ·DWIJ)] to
    [s_arho[j]], each operation rounded as the code has it (two different
    cells, [d_arho] not the array [d_m]). *)
Theorem continuity_reaction (o : Equation) (h : store) (k : operands)
    (d_arho s_arho s_m d_m : ref) (i j : nat) (md ms a b : float)
    (DWIJ VIJ : vec3) :
  symmetric o = true → d_arho ≠ s_arho ∨ i ≠ j → d_arho ≠ d_m →
  item h d_m i = Some md → item h s_m j = Some ms →
  item h d_arho i = Some a → item h s_arho j = Some b →
  ∃ h', ContinuityEquation.loop i d_arho j s_m d_m s_arho DWIJ VIJ (State o h k)
        = (Ok tt, State o h' k)
    ∧ item h' d_arho i = Some (a + ms * dot DWIJ VIJ)
    ∧ item h' s_arho j = Some (b + - md * dot DWIJ VIJ).
Proof. apply continuity_loop_symmetric. Qed.


(** ** Calls that raise *)

(** X17: index errors of SummationDensity.  [initialize] and [loop] raise
    [IndexError] when [d_idx] is past the end of [d_rho], and [loop] raises
    it when [s_idx] is past the end of [s_m]; in all three cases nothing
    has been written. *)
Theorem summation_density_index_errors (st : state Equation) (d_rho s_m : ref)
    (i j : nat) (WIJ : float) (rhos : list float) :
  heap st !! d_rho = Some rhos →
  ((length rhos ≤ i)%nat →
     SummationDensity.initialize i d_rho st = (Raise IndexError, st)
     ∧ SummationDensity.loop i d_rho j s_m WIJ st = (Raise IndexError, st))
  ∧ ((i < length rhos)%nat →
     ∀ ms, heap st !! s_m = Some ms → (length ms ≤ j)%nat →
     SummationDensity.loop i d_rho j s_m WIJ st = (Raise IndexError, st)).
Proof.
  intros Hrho. split.
  - intros Hi. split.
    + by eapply setitem_short.
    + unfold SummationDensity.loop, iadd_item. eapply bind_raise.
      by eapply getitem_short.
  - intros Hi ms Hms Hj. destruct (lookup_lt_is_Some_2 rhos i Hi) as [x Hx].
    unfold SummationDensity.loop, iadd_item.
    erewrite bind_ok by by eapply getitem_ok.
    eapply bind_raise, bind_raise. by eapply getitem_short.
Qed.

(** X18: [BodyForce.loop] is not atomic.  When [d_au[i]] exists and [d_idx]
    is past the end of [d_av], the call raises [IndexError] after it has
    added [fx] to [d_au[i]]. *)
Theorem body_force_partial_update (o : BodyForce.t) (h : store) (k : operands)
    (d_au d_av d_aw : ref) (i : nat) (a : float) (avs : list float) :
  d_au ≠ d_av → item h d_au i = Some a →
  h !! d_av = Some avs → (length avs ≤ i)%nat →
  BodyForce.loop i d_au d_av d_aw (State o h k)
  = (Raise IndexError, State o (update h d_au i (a + BodyForce.fx o)) k)
  ∧ item (update h d_au i (a + BodyForce.fx o)) d_au i = Some (a + BodyForce.fx o).
Proof.
  intros Hne Ha Hav Hi. split.
  - unfold BodyForce.loop.
    erewrite iadd_item_bind; [|done|reflexivity]. cbn [self heap].
    eapply bind_raise. unfold iadd_item. eapply bind_raise.
    eapply getitem_short; [|done]. cbn [heap].
    apply item_Some in Ha as (l & Hl & _). unfold update. rewrite Hl.
    by rewrite lookup_insert_ne.
  - apply item_update_eq. by rewrite Ha.
Qed.

(** ** IsothermalEOS: overwriting *)

(** X13: [IsothermalEOS.loop] assigns, it does not accumulate: called twice
    in a row it has the outcome and leaves the state of one call, whether
    that call completes or raises ([d_rho] and [d_p] being two arrays). *)
Theorem isothermal_eos_idempotent (st : state IsothermalEOS.t) (i : nat)
    (d_rho d_p : ref) :
  d_rho ≠ d_p →
  (IsothermalEOS.loop i d_rho d_p;; IsothermalEOS.loop i d_rho d_p) st
  = IsothermalEOS.loop i d_rho d_p st.
Proof.
  intros Hne.
  destruct (item (heap st) d_rho i) as [rho|] eqn:Hrho.
  - destruct (item (heap st) d_p i) as [p|] eqn:Hp.
    + assert (Hrun : ∀ h, item h d_rho i = Some rho → is_Some (item h d_p i) →
        IsothermalEOS.loop i d_rho d_p (State (self st) h (numeric st))
        = (Ok tt, State (self st)
             (update h d_p i (IsothermalEOS.c02 (self st)
                              * (rho - IsothermalEOS.rho0 (self st))))
             (numeric st))).
      { intros h Hr Hp'. unfold IsothermalEOS.loop.
        rewrite getattr_bind, (getitem_bind _ _ rho), getattr_bind by done.
        cbn [self]. by rewrite setitem_item. }
      destruct st as [o h k]. cbn [self heap numeric] in *.
      set (v := IsothermalEOS.c02 o * (rho - IsothermalEOS.rho0 o)) in *.
      assert (H1 : IsothermalEOS.loop i d_rho d_p (State o h k)
                   = (Ok tt, State o (update h d_p i v) k)).
      { apply Hrun; [done | by rewrite Hp]. }
      assert (H2 : IsothermalEOS.loop i d_rho d_p (State o (update h d_p i v) k)
                   = (Ok tt, State o (update (update h d_p i v) d_p i v) k)).
      { apply Hrun; [by rewrite item_update_ne by eauto|].
        rewrite item_update_eq; by rewrite ?Hp. }
      erewrite bind_ok by exact H1. by rewrite H2, H1, update_update.
    + destruct (setitem_None d_p i
        (IsothermalEOS.c02 (self st) * (rho - IsothermalEOS.rho0 (self st))) st Hp)
        as [e He].
      assert (Hrun : IsothermalEOS.loop i d_rho d_p st = (Raise e, st)).
      { unfold IsothermalEOS.loop.
        by rewrite getattr_bind, (getitem_bind _ _ rho), getattr_bind by done. }
      rewrite Hrun. by apply bind_raise.
  - destruct (getitem_None d_rho i st Hrho) as [e He].
    assert (Hrun : IsothermalEOS.loop i d_rho d_p st = (Raise e, st)).
    { unfold IsothermalEOS.loop. rewrite getattr_bind. by apply bind_raise. }
    rewrite Hrun. by apply bind_raise.
Qed.

(** X14: the cached square.  [__init__] stores [c0], [rho0] and
    [c02 = c0 * c0], and no sequence of [loop] calls, for any particles
    and arrays, completed or not, changes them: [self.c02 == self.c0 * self.c0]
    holds whenever [loop] runs. *)
Theorem isothermal_eos_cache_invariant (dest : string) (source : option string)
    (rho0 c0 : float) (sym : bool) (st0 : state IsothermalEOS.t) (h : store)
    (k : operands) (calls : list (nat * ref * ref)) :
  let o := self (IsothermalEOS.init dest source rho0 c0 sym st0).2 in
  let o' := self (foreach calls (λ c, IsothermalEOS.loop c.1.1 c.1.2 c.2)
                    (State o h k)).2 in
  IsothermalEOS.c0 o' = c0 ∧ IsothermalEOS.rho0 o' = rho0
  ∧ IsothermalEOS.c02 o' = IsothermalEOS.c0 o' * IsothermalEOS.c0 o'
  ∧ symmetric (IsothermalEOS.base o') = sym.
Proof.
  intros o o'.
  assert (Hkeep : o' = o).
  { unfold o'. rewrite keeps_self_foreach; [done|].
    intros c. unfold IsothermalEOS.loop. frame. }
  rewrite Hkeep.
  destruct (isothermal_eos_init dest source rho0 c0 sym st0) as (Hr & Hc & Hc2 & Hb).
  fold o in Hr, Hc, Hc2, Hb. by rewrite Hc2, Hc, Hr, Hb.
Qed.

(** ** VelocityGradient2D: the tensor *)

(** X15: with four distinct tensor arrays, [loop] completes and adds
    [(s_m[j]/s_rho[j]) * (-VIJ[a]) * DWIJ[b]] to [d_vab[i]] for
    [a, b] in [0, 1]; this on [float64], and on Python floats when the
    source density [s_rho[j]] is not zero. *)
Theorem velocity_gradient_loop (o : Equation) (h : store) (k : operands)
    (d_idx s_idx : nat) (s_m s_rho d_v00 d_v01 d_v10 d_v11 : ref)
    (DWIJ VIJ : vec3) (m rho a00 a01 a10 a11 : float) :
  NoDup [d_v00; d_v01; d_v10; d_v11] →
  item h s_m s_idx = Some m → item h s_rho s_idx = Some rho →
  k = Float64 ∨ is_zero rho = false →
  item h d_v00 d_idx = Some a00 → item h d_v01 d_idx = Some a01 →
  item h d_v10 d_idx = Some a10 → item h d_v11 d_idx = Some a11 →
  ∃ h', VelocityGradient2D.loop d_idx s_idx s_m s_rho d_v00 d_v01 d_v10 d_v11
          DWIJ VIJ (State o h k)
        = (Ok tt, State o h' k)
    ∧ item h' d_v00 d_idx = Some (a00 + m / rho * - elt0 VIJ * elt0 DWIJ)
    ∧ item h' d_v01 d_idx = Some (a01 + m / rho * - elt0 VIJ * elt1 DWIJ)
    ∧ item h' d_v10 d_idx = Some (a10 + m / rho * - elt1 VIJ * elt0 DWIJ)
    ∧ item h' d_v11 d_idx = Some (a11 + m / rho * - elt1 VIJ * elt1 DWIJ).
Proof. apply velocity_gradient_run. Qed.

(** X16: a neighbour with the same in-plane velocity ([VIJ[0]] and [VIJ[1]]
    zero) contributes nothing to the velocity gradient when
    [s_m[j]/s_rho[j]], [DWIJ[0]] and [DWIJ[1]] are finite: [loop] completes
    and leaves the object and every number of the store as they were,
    whatever [VIJ[2]] and [DWIJ[2]] are. *)
Theorem velocity_gradient_uniform_flow (st : state Equation) (d_idx s_idx : nat)
    (s_m s_rho d_v00 d_v01 d_v10 d_v11 : ref) (DWIJ VIJ : vec3) (m rho : float) :
  is_zero (elt0 VIJ) = true → is_zero (elt1 VIJ) = true →
  item (heap st) s_m s_idx = Some m → item (heap st) s_rho s_idx = Some rho →
  is_finite (m / rho) = true →
  is_finite (elt0 DWIJ) = true → is_finite (elt1 DWIJ) = true →
  is_Some (item (heap st) d_v00 d_idx) → is_Some (item (heap st) d_v01 d_idx) →
  is_Some (item (heap st) d_v10 d_idx) → is_Some (item (heap st) d_v11 d_idx) →
  let run := VelocityGradient2D.loop d_idx s_idx s_m s_rho d_v00 d_v01 d_v10 d_v11
               DWIJ VIJ st in
  run.1 = Ok tt ∧ same_values st run.2.
Proof.
  intros Hv0 Hv1 Hm Hrho Hfin Hw0 Hw1 H00 H01 H10 H11 run.
  assert (Hrho0 : is_zero rho = false).
  { destruct (is_zero rho) eqn:Hz; [|done].
    pose proof (div_zero_nonfinite m rho Hz) as Hq.
    unfold nonfinite in Hq. unfold is_finite in Hfin.
    by rewrite Hq in Hfin. }
  assert (Hterm : ∀ v w, is_zero v = true → is_finite w = true →
            is_zero (m / rho * - v * w) = true).
  { intros v w Hv Hw. apply mul_zero_l; [|done].
    apply mul_zero_r; [done|]. by rewrite is_zero_opp. }
  assert (Hsome : ∀ (st1 st2 : state Equation) a,
            same_values st1 st2 → is_Some (item (heap st1) a d_idx) →
            is_Some (item (heap st2) a d_idx)).
  { intros st1 st2 a S [x Hx].
    destruct (same_values_item _ _ _ _ _ S Hx) as (y & -> & _). by eexists. }
  destruct (iadd_zero_same st d_v00 d_idx (m / rho * - elt0 VIJ * elt0 DWIJ))
    as (st1 & R1 & S1); [done|by apply Hterm|].
  destruct (iadd_zero_same st1 d_v01 d_idx (m / rho * - elt0 VIJ * elt1 DWIJ))
    as (st2 & R2 & S2); [by eapply Hsome|by apply Hterm|].
  pose proof (same_values_trans _ _ _ S1 S2) as S12.
  destruct (iadd_zero_same st2 d_v10 d_idx (m / rho * - elt1 VIJ * elt0 DWIJ))
    as (st3 & R3 & S3); [by eapply Hsome|by apply Hterm|].
  pose proof (same_values_trans _ _ _ S12 S3) as S123.
  destruct (iadd_zero_same st3 d_v11 d_idx (m / rho * - elt1 VIJ * elt1 DWIJ))
    as (st4 & R4 & S4); [by eapply Hsome|by apply Hterm|].
  assert (Hrun : run = (Ok tt, st4)).
  { unfold run, VelocityGradient2D.loop.
    rewrite (getitem_bind _ _ m), (getitem_bind _ _ rho) by done.
    rewrite truediv_bind by auto.
    erewrite bind_ok by exact R1. erewrite bind_ok by exact R2.
    erewrite bind_ok by exact R3. exact R4. }
  rewrite Hrun. split; [done|]. by eapply same_values_trans.
Qed.

(** ** ContinuityEquation: the density rate of a particle *)

Lemma continuity_loops_one_sided (o : Equation) (h : store) (k : operands)
    (i : nat) (d_arho s_m d_m s_arho : ref) (nbrs : list (nat * vec3 * vec3)) :
  symmetric o = false → d_arho ≠ s_m →
  Forall (λ n, is_Some (item h s_m n.1.1)) nbrs →
  ∀ (h1 : store) (a : float),
  (∀ l, item h1 s_m l = item h s_m l) → item h1 d_arho i = Some a →
  ∃ h2, foreach nbrs (λ n, ContinuityEquation.loop i d_arho n.1.1 s_m d_m s_arho
                             n.1.2 n.2) (State o h1 k)
        = (Ok tt, State o h2 k)
    ∧ item h2 d_arho i = Some (accumulate (continuity_terms h s_m nbrs) a).
Proof.
  intros Hoff Hne Hall.
  induction Hall as [|[[j DWIJ] VIJ] nbrs [m Hm] _ IH]; intros h1 a Hframe Ha.
  - by exists h1.
  - cbn [fst snd] in Hm.
    destruct (IH (update h1 d_arho i (a + m * dot DWIJ VIJ)) (a + m * dot DWIJ VIJ))
      as (h2 & Hrun & Ha2).
    + intros l. rewrite item_update_ne by eauto. apply Hframe.
    + apply item_update_eq. by rewrite Ha.
    + exists h2. split.
      * cbn [foreach fst snd]. erewrite bind_ok; [exact Hrun|].
        unfold ContinuityEquation.loop. cbv zeta.
        erewrite iadd_item_bind; [|done|].
        2:{ rewrite (getitem_bind _ _ m); [done|]. cbn. by rewrite Hframe. }
        rewrite getattr_bind. cbn [self heap]. by rewrite Hoff.
      * rewrite Ha2. unfold continuity_terms, accumulate. rewrite fmap_cons.
        cbn [fold_left fst snd]. by rewrite Hm.
Qed.

(** X19: the density rate.  With [symmetric] off, after [initialize] and one
    [loop] call per neighbour, [d_arho[i]] is the running sum from [0.0] of
    the terms [s_m[j] * (VIJ·DWIJ)] of the class docstring, in the order of
    the neighbours and each addition rounded; with no neighbour it is
    [0.0]. *)
Theorem continuity_pass_accumulates (o : Equation) (h : store) (k : operands)
    (i : nat) (d_arho s_m d_m s_arho : ref) (nbrs : list (nat * vec3 * vec3)) :
  symmetric o = false → d_arho ≠ s_m → is_Some (item h d_arho i) →
  Forall (λ n, is_Some (item h s_m n.1.1)) nbrs →
  ∃ h', continuity_pass i d_arho s_m d_m s_arho nbrs (State o h k)
        = (Ok tt, State o h' k)
    ∧ item h' d_arho i = Some (accumulate (continuity_terms h s_m nbrs) 0).
Proof.
  intros Hoff Hne Ha Hall.
  destruct (continuity_loops_one_sided o h k i d_arho s_m d_m s_arho nbrs Hoff Hne
              Hall (update h d_arho i 0) 0) as (h' & Hrun & Ha').
  - intros l. by rewrite item_update_ne by eauto.
  - by apply item_update_eq.
  - exists h'. split; [|done].
    unfold continuity_pass, ContinuityEquation.initialize.
    by rewrite setitem_bind by done.
Qed.


(** * The properties on the examples *)

Lemma summation_density_accumulates_witness :
  (SummationDensity.initialize 0 ("drops", "rho") (State plain drops PyFloat)
    = (Ok tt, State plain (<[("drops", "rho") := <[0%nat := 0]> [0; 0; 0]]> drops)
                PyFloat)
  ∧ density_pass 0 ("drops", "rho") ("drops", "m") three_weights
      (State plain drops PyFloat)
    = (Ok tt, State plain
         (<[("drops", "rho") :=
              <[0%nat := accumulate (density_terms [0.1; 0.2; 0.3] three_weights) 0]>
                [0; 0; 0]]> drops) PyFloat)
  ∧ density_pass 0 ("drops", "rho") ("drops", "m") [] (State plain drops PyFloat)
    = (Ok tt, State plain (<[("drops", "rho") := <[0%nat := 0]> [0; 0; 0]]> drops)
                PyFloat))
  ∧ accumulate (density_terms [0.1; 0.2; 0.3] three_weights) 0 = 0.6000000000000001.
Proof.
  split; [|by vm_compute].
  apply (summation_density_accumulates plain drops PyFloat ("drops", "rho")
           ("drops", "m") 0 [0; 0; 0] [0.1; 0.2; 0.3] three_weights).
  - done.
  - reflexivity.
  - simpl. lia.
  - reflexivity.
  - repeat constructor; simpl; lia.
Defined.



Lemma body_force_accumulates_witness :
  (∃ h', body_force_pass 0 ("fluid", "au") ("fluid", "av") ("fluid", "aw") ten_visits
           (State wind fluid PyFloat)
         = (Ok tt, State wind h' PyFloat)
     ∧ item h' ("fluid", "au") 0 = Some (add_times (length ten_visits) 0.1 0)
     ∧ item h' ("fluid", "av") 0 = Some (add_times (length ten_visits) 1.5 0)
     ∧ item h' ("fluid", "aw") 0 = Some (add_times (length ten_visits) 0 0))
  ∧ add_times (length ten_visits) 0.1 0 = 0.9999999999999999
  ∧ add_times (length ten_visits) 1.5 0 = 15.
Proof.
  split; [|by vm_compute].
  apply (body_force_accumulates wind fluid PyFloat ("fluid", "au") ("fluid", "av")
           ("fluid", "aw") 0 ten_visits).
  - done.
  - done.
  - done.
  - vm_compute; eauto.
  - vm_compute; eauto.
  - vm_compute; eauto.
Defined.

Lemma isothermal_eos_pressure_witness :
  let o := self (IsothermalEOS.init "fluid" None 1000 10 false
                   (State water fluid PyFloat)).2 in
  ∃ h', IsothermalEOS.loop 0 ("fluid", "rho") ("fluid", "p") (State o fluid PyFloat)
        = (Ok tt, State o h' PyFloat)
    ∧ item h' ("fluid", "rho") 0 = Some 1000
    ∧ item h' ("fluid", "p") 0 = Some (10 * 10 * (1000 - 1000))
    ∧ ((1000 =? 1000) = true → is_finite 1000 = true → is_finite (10 * 10) = true →
       is_zero (10 * 10 * (1000 - 1000)) = true
       ∧ (10 * 10 * (1000 - 1000) =? 0) = true).
Proof.
  apply (isothermal_eos_pressure "fluid" None 1000 10 false
           (State water fluid PyFloat) fluid PyFloat ("fluid", "rho") ("fluid", "p")
           0 1000).
  - done.
  - reflexivity.
  - vm_compute; eauto.
Defined.

Lemma xsph_initialize_idempotent_witness :
  ∃ h1, XSPHCorrection.initialize 0 ("fluid", "ax") ("fluid", "ay") ("fluid", "az")
          (State xsph fluid PyFloat)
        = (Ok tt, State xsph h1 PyFloat)
    ∧ item h1 ("fluid", "ax") 0 = Some 0
    ∧ item h1 ("fluid", "ay") 0 = Some 0
    ∧ item h1 ("fluid", "az") 0 = Some 0
    ∧ XSPHCorrection.initialize 0 ("fluid", "ax") ("fluid", "ay") ("fluid", "az")
        (State xsph h1 PyFloat)
      = (Ok tt, State xsph h1 PyFloat).
Proof.
  apply (xsph_initialize_idempotent xsph fluid PyFloat ("fluid", "ax")
           ("fluid", "ay") ("fluid", "az") 0).
  - vm_compute; eauto.
  - vm_compute; eauto.
  - vm_compute; eauto.
Defined.

Lemma monaghan_ignores_density_witness :
  let run := MonaghanArtificialViscosity.loop 0 1 ("fluid", "rho") ("fluid", "cs")
               ("fluid", "au") ("fluid", "av") ("fluid", "aw") ("fluid", "m")
               ("fluid", "rho") ("fluid", "cs") closing e_x 1 1 1 e_x e_x in
  (run (State viscous fluid PyFloat)).1 = (run (State viscous fluid_dense PyFloat)).1
  ∧ agree_off (density_arrays ("fluid", "rho") ("fluid", "rho"))
      (heap (run (State viscous fluid PyFloat)).2)
      (heap (run (State viscous fluid_dense PyFloat)).2)
  ∧ heap (run (State viscous fluid PyFloat)).2 !! ("fluid", "au")
    = heap (run (State viscous fluid_dense PyFloat)).2 !! ("fluid", "au")
  ∧ heap (run (State viscous fluid PyFloat)).2 !! ("fluid", "av")
    = heap (run (State viscous fluid_dense PyFloat)).2 !! ("fluid", "av")
  ∧ heap (run (State viscous fluid PyFloat)).2 !! ("fluid", "aw")
    = heap (run (State viscous fluid_dense PyFloat)).2 !! ("fluid", "aw").
Proof.
  apply (monaghan_ignores_density viscous PyFloat fluid fluid_dense 0 1
           ("fluid", "rho") ("fluid", "cs") ("fluid", "au") ("fluid", "av")
           ("fluid", "aw") ("fluid", "m") ("fluid", "rho") ("fluid", "cs")
           closing e_x 1 1 1 e_x e_x 1000 998 1 3).
  - repeat constructor; intros [?|?]; done.
  - intros r Hr. unfold fluid_dense. rewrite lookup_insert_ne; [done|].
    intros <-. apply Hr. by left.
  - reflexivity.
  - reflexivity.
  - reflexivity.
  - reflexivity.
  - right. repeat split; reflexivity.
Defined.


Lemma one_sided_without_symmetric_witness :
  same_off [(("fluid", "arho"), 0%nat)] (State plain fluid PyFloat)
    (ContinuityEquation.loop 0 ("fluid", "arho") 1 ("fluid", "m") ("fluid", "m")
       ("fluid", "arho") e_x e_x (State plain fluid PyFloat)).2
  ∧ same_off [(("fluid", "ax"), 0%nat); (("fluid", "ay"), 0%nat); (("fluid", "az"), 0%nat)]
      (State xsph fluid PyFloat)
      (XSPHCorrection.loop 1 0 ("fluid", "m") ("fluid", "ax") ("fluid", "ay")
         ("fluid", "az") ("fluid", "m") ("fluid", "ax") ("fluid", "ay")
         ("fluid", "az") 1 1 e_x (State xsph fluid PyFloat)).2.
Proof.
  destruct one_sided_without_symmetric as [Hce Hxsph]. split.
  - apply (Hce (State plain fluid PyFloat)). reflexivity.
  - apply (Hxsph (State xsph fluid PyFloat)). reflexivity.
Defined.

Lemma monaghan_piij_nonneg_witness :
  ∃ p, MonaghanArtificialViscosity.piij_of (-1) 0 1 ("fluid", "cs")
         ("fluid", "cs") 1 1 1 (State viscous fluid PyFloat)
       = (Ok p, State viscous fluid PyFloat) ∧ (p <? 0) = false.
Proof.
  apply (monaghan_piij_nonneg (State viscous fluid PyFloat) (-1) 0 1 ("fluid", "cs")
           ("fluid", "cs") 1 1 1 10 10); reflexivity.
Defined.

Lemma monaghan_approaching_pair_witness :
  let piij := monaghan_pi 1 1 0.1 10 10 (dot closing e_x) 1 1 1 in
  ∃ h', MonaghanArtificialViscosity.loop 0 1 ("fluid", "rho") ("fluid", "cs")
          ("fluid", "au") ("fluid", "av") ("fluid", "aw") ("fluid", "m")
          ("fluid", "rho") ("fluid", "cs") closing e_x 1 1 1 e_x e_x
          (State viscous fluid PyFloat)
        = (Ok tt, State viscous h' PyFloat)
    ∧ item h' ("fluid", "au") 0 = Some (5 + - 2 * piij * elt0 e_x)
    ∧ item h' ("fluid", "av") 0 = Some (5 + - 2 * piij * elt1 e_x)
    ∧ item h' ("fluid", "aw") 0 = Some (5 + - 2 * piij * elt2 e_x).
Proof.
  apply (monaghan_approaching_pair viscous fluid PyFloat 0 1 ("fluid", "rho")
           ("fluid", "cs") ("fluid", "au") ("fluid", "av") ("fluid", "aw")
           ("fluid", "m") ("fluid", "rho") ("fluid", "cs") closing e_x 1 1 1
           e_x e_x 1000 998 10 10 2 5 5 5);
    first [reflexivity | done | right; repeat split; reflexivity].
Defined.


Lemma xsph_pass_one_sided_witness :
  (∃ h', xsph_pass 0 ("drops", "m") ("drops", "ax") ("drops", "ay") ("drops", "az")
           ("drops", "m") ("drops", "ax") ("drops", "ay") ("drops", "az")
           ("drops", "u") ("drops", "v") ("drops", "w") three_nbrs
           (State xsph drops PyFloat)
         = (Ok tt, State xsph h' PyFloat)
     ∧ item h' ("drops", "ax") 0
       = Some (accumulate (xsph_terms half drops ("drops", "m") elt0 three_nbrs) 0 + 1)
     ∧ item h' ("drops", "ay") 0
       = Some (accumulate (xsph_terms half drops ("drops", "m") elt1 three_nbrs) 0 + 0)
     ∧ item h' ("drops", "az") 0
       = Some (accumulate (xsph_terms half drops ("drops", "m") elt2 three_nbrs) 0 + 0))
  ∧ accumulate (xsph_terms half drops ("drops", "m") elt0 three_nbrs) 0
    = -0.30000000000000004.
Proof.
  split; [|by vm_compute].
  apply (xsph_pass_one_sided xsph drops PyFloat 0 ("drops", "m") ("drops", "ax")
           ("drops", "ay") ("drops", "az") ("drops", "m") ("drops", "ax")
           ("drops", "ay") ("drops", "az") ("drops", "u") ("drops", "v")
           ("drops", "w") three_nbrs 1 0 0).
  - reflexivity.
  - done.
  - done.
  - done.
  - repeat constructor;
      (rewrite !not_elem_of_cons; repeat split; [done..|apply not_elem_of_nil]).
  - vm_compute; eauto.
  - vm_compute; eauto.
  - vm_compute; eauto.
  - reflexivity.
  - reflexivity.
  - reflexivity.
  - repeat constructor; vm_compute; eauto.
Defined.

Lemma xsph_reaction_witness :
  let tmp := - half * 2 * 1 * 1 in
  let factor := - 2 / 2 in
  ∃ h', XSPHCorrection.loop 1 0 ("fluid", "m") ("fluid", "ax") ("fluid", "ay")
          ("fluid", "az") ("fluid", "m") ("fluid", "ax") ("fluid", "ay")
          ("fluid", "az") 1 1 e_x (State xsph_paired fluid PyFloat)
        = (Ok tt, State xsph_paired h' PyFloat)
    ∧ item h' ("fluid", "ax") 0 = Some (3 + tmp * elt0 e_x)
    ∧ item h' ("fluid", "ay") 0 = Some (3 + tmp * elt1 e_x)
    ∧ item h' ("fluid", "az") 0 = Some (3 + tmp * elt2 e_x)
    ∧ item h' ("fluid", "ax") 1 = Some (3 + tmp * elt0 e_x * factor)
    ∧ item h' ("fluid", "ay") 1 = Some (3 + tmp * elt1 e_x * factor)
    ∧ item h' ("fluid", "az") 1 = Some (3 + tmp * elt2 e_x * factor).
Proof.
  apply (xsph_reaction xsph_paired fluid PyFloat "fluid" "fluid" 0 1 1 1 e_x
           2 2 3 3 3 3 3 3).
  - reflexivity.
  - right. lia.
  - right. reflexivity.
  - reflexivity.
  - reflexivity.
  - reflexivity.
  - reflexivity.
  - reflexivity.
  - reflexivity.
  - reflexivity.
  - reflexivity.
Defined.

Lemma xsph_zero_source_mass_witness :
  (let run := XSPHCorrection.loop 1 0 ("fluid", "m") ("fluid", "ax") ("fluid", "ay")
                ("fluid", "az") ("fluid", "m") ("fluid", "ax") ("fluid", "ay")
                ("fluid", "az") 1 1 e_x (State xsph_paired fluid_massless PyFloat) in
   run.1 = Raise ZeroDivisionError
   ∧ same_values (State xsph_paired fluid_massless PyFloat) run.2)
  ∧ (nonfinite (- 2 / 0) = true
     ∧ ∃ h' x y z,
         XSPHCorrection.loop 1 0 ("fluid", "m") ("fluid", "ax") ("fluid", "ay")
           ("fluid", "az") ("fluid", "m") ("fluid", "ax") ("fluid", "ay")
           ("fluid", "az") 1 1 e_x (State xsph_paired fluid_massless Float64)
         = (Ok tt, State xsph_paired h' Float64)
         ∧ item h' ("fluid", "ax") 1 = Some x ∧ nonfinite x = true
         ∧ item h' ("fluid", "ay") 1 = Some y ∧ nonfinite y = true
         ∧ item h' ("fluid", "az") 1 = Some z ∧ nonfinite z = true).
Proof.
  destruct xsph_zero_source_mass as [Hpy Hnp]. split.
  - apply (Hpy (State xsph_paired fluid_massless PyFloat) 1%nat 0%nat ("fluid", "m")
             ("fluid", "ax") ("fluid", "ay") ("fluid", "az") ("fluid", "m")
             ("fluid", "ax") ("fluid", "ay") ("fluid", "az") 1 1 e_x 0);
      first [reflexivity | vm_compute; eauto].
  - apply (Hnp xsph_paired fluid_massless "fluid" "fluid" 0%nat 1%nat 1 1 e_x
             2 0 3 3 3 3 3 3); first [reflexivity | right; lia].
Defined.

Lemma continuity_reaction_witness :
  ∃ h', ContinuityEquation.loop 0 ("fluid", "arho") 1 ("fluid", "m")
          ("fluid", "m") ("fluid", "arho") e_x e_x (State paired fluid PyFloat)
        = (Ok tt, State paired h' PyFloat)
    ∧ item h' ("fluid", "arho") 0 = Some (0 + 2 * dot e_x e_x)
    ∧ item h' ("fluid", "arho") 1 = Some (0 + - 2 * dot e_x e_x).
Proof.
  apply (continuity_reaction paired fluid PyFloat ("fluid", "arho") ("fluid", "arho")
           ("fluid", "m") ("fluid", "m") 0 1 2 2 0 0 e_x e_x).
  - reflexivity.
  - right. lia.
  - done.
  - reflexivity.
  - reflexivity.
  - reflexivity.
  - reflexivity.
Defined.

Lemma isothermal_eos_idempotent_witness :
  (IsothermalEOS.loop 0 ("fluid", "rho") ("fluid", "p");;
   IsothermalEOS.loop 0 ("fluid", "rho") ("fluid", "p")) (State water fluid PyFloat)
  = IsothermalEOS.loop 0 ("fluid", "rho") ("fluid", "p") (State water fluid PyFloat).
Proof.
  apply (isothermal_eos_idempotent (State water fluid PyFloat) 0 ("fluid", "rho")
           ("fluid", "p")).
  done.
Defined.

Lemma velocity_gradient_loop_witness :
  ∃ h', VelocityGradient2D.loop 0 1 ("fluid", "m") ("fluid", "rho") ("fluid", "v00")
          ("fluid", "v01") ("fluid", "v10") ("fluid", "v11") e_x closing
          (State plain fluid_2d PyFloat)
        = (Ok tt, State plain h' PyFloat)
    ∧ item h' ("fluid", "v00") 0 = Some (1 + 2 / 998 * - elt0 closing * elt0 e_x)
    ∧ item h' ("fluid", "v01") 0 = Some (1 + 2 / 998 * - elt0 closing * elt1 e_x)
    ∧ item h' ("fluid", "v10") 0 = Some (1 + 2 / 998 * - elt1 closing * elt0 e_x)
    ∧ item h' ("fluid", "v11") 0 = Some (1 + 2 / 998 * - elt1 closing * elt1 e_x).
Proof.
  apply (velocity_gradient_loop plain fluid_2d PyFloat 0 1 ("fluid", "m")
           ("fluid", "rho") ("fluid", "v00") ("fluid", "v01") ("fluid", "v10")
           ("fluid", "v11") e_x closing 2 998 1 1 1 1).
  - apply (bool_decide_unpack _). by vm_compute.
  - reflexivity.
  - reflexivity.
  - right. reflexivity.
  - reflexivity.
  - reflexivity.
  - reflexivity.
  - reflexivity.
Defined.

Lemma velocity_gradient_uniform_flow_witness :
  let st := State plain fluid_2d PyFloat in
  let run := VelocityGradient2D.loop 0 1 ("fluid", "m") ("fluid", "rho")
               ("fluid", "v00") ("fluid", "v01") ("fluid", "v10") ("fluid", "v11")
               e_x (Vec3 0 0 4) st in
  run.1 = Ok tt ∧ same_values st run.2.
Proof.
  apply (velocity_gradient_uniform_flow (State plain fluid_2d PyFloat) 0 1
           ("fluid", "m") ("fluid", "rho") ("fluid", "v00") ("fluid", "v01")
           ("fluid", "v10") ("fluid", "v11") e_x (Vec3 0 0 4) 2 998);
    first [reflexivity | vm_compute; eauto].
Defined.

Lemma summation_density_index_errors_witness :
  SummationDensity.initialize 2 ("fluid", "rho") (State plain fluid PyFloat)
    = (Raise IndexError, State plain fluid PyFloat)
  ∧ SummationDensity.loop 2 ("fluid", "rho") 0 ("fluid", "m") 1
      (State plain fluid PyFloat)
    = (Raise IndexError, State plain fluid PyFloat)
  ∧ SummationDensity.loop 0 ("fluid", "rho") 2 ("fluid", "m") 1
      (State plain fluid PyFloat)
    = (Raise IndexError, State plain fluid PyFloat).
Proof.
  assert (Hrho : heap (State plain fluid PyFloat) !! ("fluid", "rho")
                 = Some [1000; 998]) by reflexivity.
  destruct (summation_density_index_errors (State plain fluid PyFloat)
              ("fluid", "rho") ("fluid", "m") 2 0 1 [1000; 998] Hrho) as [Hd _].
  destruct (summation_density_index_errors (State plain fluid PyFloat)
              ("fluid", "rho") ("fluid", "m") 0 2 1 [1000; 998] Hrho) as [_ Hs].
  destruct Hd as [Hinit Hloop]; [simpl; lia|].
  split; [exact Hinit|]. split; [exact Hloop|].
  apply (Hs ltac:(simpl; lia) [2; 2]); [reflexivity | simpl; lia].
Defined.

Lemma body_force_partial_update_witness :
  (BodyForce.loop 1 ("fluid", "au") ("fluid", "av") ("fluid", "aw")
     (State wind fluid_short PyFloat)
   = (Raise IndexError,
      State wind (update fluid_short ("fluid", "au") 1 (5 + 0.1)) PyFloat)
   ∧ item (update fluid_short ("fluid", "au") 1 (5 + 0.1)) ("fluid", "au") 1
     = Some (5 + 0.1))
  ∧ item fluid_short ("fluid", "au") 1 = Some 5
  ∧ (5 + 0.1 =? 5) = false.
Proof.
  split; [|by vm_compute].
  apply (body_force_partial_update wind fluid_short PyFloat ("fluid", "au")
           ("fluid", "av") ("fluid", "aw") 1 5 [5]).
  - done.
  - reflexivity.
  - reflexivity.
  - simpl. lia.
Defined.

Lemma continuity_pass_accumulates_witness :
  (∃ h', continuity_pass 0 ("drops", "arho") ("drops", "m") ("drops", "m")
           ("drops", "arho") three_pairs (State plain drops PyFloat)
         = (Ok tt, State plain h' PyFloat)
     ∧ item h' ("drops", "arho") 0
       = Some (accumulate (continuity_terms drops ("drops", "m") three_pairs) 0))
  ∧ accumulate (continuity_terms drops ("drops", "m") three_pairs) 0
    = 0.6000000000000001.
Proof.
  split; [|by vm_compute].
  apply (continuity_pass_accumulates plain drops PyFloat 0 ("drops", "arho")
           ("drops", "m") ("drops", "m") ("drops", "arho") three_pairs).
  - reflexivity.
  - done.
  - vm_compute; eauto.
  - repeat constructor; vm_compute; eauto.
Defined.
